(** * bbr_rosbag2_storage_plugin: the BbrStorage chain core

    A shallow embedding of [bbr_storage.cpp] (class [BbrStorage] of the
    Black Block Recorder storage plugin for rosbag2) and the properties of
    its hash chain, checkpoint emission and read-back.

    The object's state is passed explicitly.  C++ exceptions are modelled
    by a state-and-exception monad in which the state survives a throw, as
    the fields of a C++ object do.  The collaborators of the class (the
    SQLite wrapper, the BbrNode publisher, the BbrHelper digest functions)
    are not defined in [bbr_storage.cpp]; the digest functions are taken as
    an interface, the database as two tables with SQLite's rowid rule, and
    the node as the ordered list of the calls it received. *)

From Stdlib Require Import ZArith Lia Permutation Sorted.
From Stdlib Require Import Strings.Byte.
From stdpp Require Import base decidable option list sorting strings gmap.

(** ** Values *)

(** BLOB columns, digests and nonces: byte strings. *)
Abbreviation blob := (list byte).

#[global] Instance byte_eq_decision : EqDecision byte := Byte.byte_eq_dec.

(** [static_cast<int>] of a 64-bit value and the conversion of an [int]
    to [size_t] on a 64-bit target, wrap-around written out. *)
Definition static_cast_int (z : Z) : Z :=
  ((z + 2147483648) mod 4294967296 - 2147483648)%Z.

Definition static_cast_size_t (z : Z) : Z := (z mod 18446744073709551616)%Z.

Definition wrap_int64 (z : Z) : Z :=
  ((z + 9223372036854775808) mod 18446744073709551616 - 9223372036854775808)%Z.

Definition INT64_MAX : Z := 9223372036854775807%Z.

(** [rosbag2_storage::TopicMetadata]. *)
Module TopicMetadata.
Record t : Type := mk
  { name : string; type : string; serialization_format : string }.
End TopicMetadata.

(** [rosbag2_storage::SerializedBagMessage]. *)
Module SerializedBagMessage.
Record t : Type := mk
  { serialized_data : blob; time_stamp : Z; topic_name : string }.
End SerializedBagMessage.

(** [BbrStorage::TopicInfo], the value type of [topics_]. *)
Module TopicInfo.
Record t : Type := mk { id : Z; digest : blob; nonce : blob }.
End TopicInfo.

(** ** The BbrHelper interface

    [helper_->computeTopicDigest], [computeMessageDigest] and
    [computeTopicNonce] are called by this file and defined elsewhere;
    [createNonce] is drawn once by the constructor and enters the model
    as the constructor's argument. *)
Class BbrHelper : Type := mkBbrHelper
  { computeTopicDigest : blob -> TopicMetadata.t -> blob;
    computeMessageDigest : blob -> SerializedBagMessage.t -> blob;
    computeTopicNonce : blob -> TopicMetadata.t -> blob }.

(** ** The database

    Rows of the two tables created by [initialize]. *)
Module topics_row.
Record t : Type := mk
  { id : Z; name : string; type : string; serialization_format : string;
    bbr_nonce : blob; bbr_digest : blob }.
End topics_row.

Module messages_row.
Record t : Type := mk
  { id : Z; topic_id : Z; timestamp : Z; data : blob; bbr_digest : blob }.
End messages_row.

(** Tables are kept in insertion order. *)
Record SqliteWrapper : Type := mkSqliteWrapper
  { topics : list topics_row.t;
    messages : list messages_row.t;
    last_insert_id : Z }.

(** [id INTEGER PRIMARY KEY] without a bound value: one more than the
    largest rowid in the table, 1 for an empty table. *)
Definition next_rowid (ids : list Z) : Z := Z.succ (foldr Z.max 0%Z ids).

(** [INSERT INTO topics (name, type, serialization_format, bbr_nonce,
    bbr_digest) VALUES (?, ?, ?, ?, ?)]: the row it adds, and the table
    after it. *)
Definition new_topics_row (db : SqliteWrapper) (name type format : string)
    (bbr_nonce bbr_digest : blob) : topics_row.t :=
  topics_row.mk (next_rowid (map topics_row.id (topics db)))
    name type format bbr_nonce bbr_digest.

Definition insert_into_topics (row : topics_row.t) (db : SqliteWrapper)
    : SqliteWrapper :=
  {| topics := topics db ++ [row];
     messages := messages db;
     last_insert_id := topics_row.id row |}.

(** [INSERT INTO messages (timestamp, topic_id, data, bbr_digest)
    VALUES (?, ?, ?, ?);]. *)
Definition new_messages_row (db : SqliteWrapper) (timestamp topic_id : Z)
    (data bbr_digest : blob) : messages_row.t :=
  messages_row.mk (next_rowid (map messages_row.id (messages db)))
    topic_id timestamp data bbr_digest.

Definition insert_into_messages (row : messages_row.t) (db : SqliteWrapper)
    : SqliteWrapper :=
  {| topics := topics db;
     messages := messages db ++ [row];
     last_insert_id := messages_row.id row |}.

(** [FROM messages JOIN topics ON messages.topic_id = topics.id]: the
    pairs are listed message by message, in rowid order. *)
Definition messages_join_topics (db : SqliteWrapper)
    : list (messages_row.t * topics_row.t) :=
  m ← messages db;
  t ← filter (fun t => topics_row.id t = messages_row.topic_id m) (topics db);
  [(m, t)].

Definition by_timestamp (p q : messages_row.t * topics_row.t) : Prop :=
  (messages_row.timestamp p.1 ≤ messages_row.timestamp q.1)%Z.

#[global] Instance by_timestamp_dec p q : Decision (by_timestamp p q).
Proof. unfold by_timestamp. apply _. Defined.

(** A row of the read cursor: [data, timestamp, topics.name]. *)
Definition message_row : Type := blob * Z * string.

(** The query of [prepare_for_reading]:
    [SELECT data, timestamp, topics.name FROM messages JOIN topics ...
     ORDER BY messages.timestamp]. *)
Definition select_messages_ordered (db : SqliteWrapper) : list message_row :=
  map (fun p => (messages_row.data p.1, messages_row.timestamp p.1, topics_row.name p.2))
      (merge_sort by_timestamp (messages_join_topics db)).

Definition by_id (a b : topics_row.t) : Prop :=
  (topics_row.id a ≤ topics_row.id b)%Z.

#[global] Instance by_id_dec a b : Decision (by_id a b).
Proof. unfold by_id. apply _. Defined.

(** The query of [fill_topics_and_types]:
    [SELECT name, type, serialization_format FROM topics ORDER BY id]. *)
Definition select_topics_ordered (db : SqliteWrapper) : list TopicMetadata.t :=
  map (fun t => TopicMetadata.mk (topics_row.name t) (topics_row.type t)
                  (topics_row.serialization_format t))
      (merge_sort by_id (topics db)).

(** A row of the summary query of [get_metadata]:
    [name, type, serialization_format, COUNT(messages.id),
     MIN(messages.timestamp), MAX(messages.timestamp)]. *)
Definition summary_row : Type := string * string * string * Z * Z * Z.

(** The columns [type] and [serialization_format] of the summary query
    are bare: neither grouped by nor aggregated.  With both a MIN and a
    MAX in the query SQLite takes them from one row of the group and
    leaves open which, so the row is the database's choice: a function of
    the group that returns one of its rows. *)
Class BareColumns : Type := mkBareColumns
  { bare_columns_row :
      list (messages_row.t * topics_row.t) ->
      option (messages_row.t * topics_row.t);
    bare_columns_row_in_group :
      forall group row, bare_columns_row group = Some row -> row ∈ group;
    bare_columns_row_of_nonempty :
      forall group, group <> [] -> is_Some (bare_columns_row group) }.

Definition group_summary {bare_columns_ : BareColumns} (name : string)
    (group : list (messages_row.t * topics_row.t)) : summary_row :=
  let stamps := map (fun p => messages_row.timestamp p.1) group in
  let first_stamp := hd 0%Z stamps in
  (name,
   from_option (fun p => topics_row.type p.2) EmptyString
     (bare_columns_row group),
   from_option (fun p => topics_row.serialization_format p.2) EmptyString
     (bare_columns_row group),
   Z.of_nat (length group),
   foldr Z.min first_stamp stamps,
   foldr Z.max first_stamp stamps).

(** [... FROM messages JOIN topics on topics.id = messages.topic_id
     GROUP BY topics.name]: one row per name that occurs in the join; a
    join without rows has no groups.  SQLite forms the groups by sorting
    the join on the key, so the rows come out in ascending order of the
    name (compared byte by byte). *)
Definition select_summary {bare_columns_ : BareColumns} (db : SqliteWrapper)
    : list summary_row :=
  let joined := messages_join_topics db in
  map (fun n => group_summary n
                  (filter (fun p => topics_row.name p.2 = n) joined))
      (merge_sort String.le
         (remove_dups (map (fun p => topics_row.name p.2) joined))).

(** ** The node

    The calls received by [node_], oldest first. *)
Inductive node_call : Type :=
| create_record (digest : blob) (topic : TopicMetadata.t)
| publish_checkpoint (digest nonce : blob) (message : SerializedBagMessage.t).

(** ** Program-order log

    A ghost field: every assignment to chain state and every completed
    call to a collaborator is appended to it, in the order the statements
    run.  No operation reads it. *)
Inductive event : Type :=
| EvNonce (n : blob)
| EvDigest (name : string) (d : blob)
| EvEmplace (name : string) (info : TopicInfo.t)
| EvInsertTopic (row : topics_row.t)
| EvInsertMessage (row : messages_row.t)
| EvNode (c : node_call).

(** ** The object

    The fields of an opened [BbrStorage].  [write_statement_] and
    [read_statement_] record whether the statement pointer is non-null;
    [current_message_row_] is the position of the iterator in
    [message_result_]. *)
Record BbrStorage : Type := mkBbrStorage
  { node_ : list node_call;
    database_ : SqliteWrapper;
    database_name_ : string;
    write_statement_ : bool;
    read_statement_ : bool;
    message_result_ : list message_row;
    current_message_row_ : nat;
    all_topics_and_types_ : list TopicMetadata.t;
    topics_ : gmap string TopicInfo.t;
    nonce_ : blob;
    history : list event }.

Definition set_node_ (v : list node_call) (s : BbrStorage) : BbrStorage :=
  mkBbrStorage v (database_ s) (database_name_ s) (write_statement_ s)
    (read_statement_ s) (message_result_ s) (current_message_row_ s)
    (all_topics_and_types_ s) (topics_ s) (nonce_ s) (history s).

Definition set_database_ (v : SqliteWrapper) (s : BbrStorage) : BbrStorage :=
  mkBbrStorage (node_ s) v (database_name_ s) (write_statement_ s)
    (read_statement_ s) (message_result_ s) (current_message_row_ s)
    (all_topics_and_types_ s) (topics_ s) (nonce_ s) (history s).

Definition set_write_statement_ (v : bool) (s : BbrStorage) : BbrStorage :=
  mkBbrStorage (node_ s) (database_ s) (database_name_ s) v
    (read_statement_ s) (message_result_ s) (current_message_row_ s)
    (all_topics_and_types_ s) (topics_ s) (nonce_ s) (history s).

Definition set_read_cursor (result : list message_row) (pos : nat)
    (s : BbrStorage) : BbrStorage :=
  mkBbrStorage (node_ s) (database_ s) (database_name_ s) (write_statement_ s)
    true result pos
    (all_topics_and_types_ s) (topics_ s) (nonce_ s) (history s).

Definition set_current_message_row_ (pos : nat) (s : BbrStorage) : BbrStorage :=
  mkBbrStorage (node_ s) (database_ s) (database_name_ s) (write_statement_ s)
    (read_statement_ s) (message_result_ s) pos
    (all_topics_and_types_ s) (topics_ s) (nonce_ s) (history s).

Definition set_all_topics_and_types_ (v : list TopicMetadata.t)
    (s : BbrStorage) : BbrStorage :=
  mkBbrStorage (node_ s) (database_ s) (database_name_ s) (write_statement_ s)
    (read_statement_ s) (message_result_ s) (current_message_row_ s)
    v (topics_ s) (nonce_ s) (history s).

Definition set_topics_ (v : gmap string TopicInfo.t) (s : BbrStorage) : BbrStorage :=
  mkBbrStorage (node_ s) (database_ s) (database_name_ s) (write_statement_ s)
    (read_statement_ s) (message_result_ s) (current_message_row_ s)
    (all_topics_and_types_ s) v (nonce_ s) (history s).

Definition set_nonce_ (v : blob) (s : BbrStorage) : BbrStorage :=
  mkBbrStorage (node_ s) (database_ s) (database_name_ s) (write_statement_ s)
    (read_statement_ s) (message_result_ s) (current_message_row_ s)
    (all_topics_and_types_ s) (topics_ s) v (history s).

Definition log (e : event) (s : BbrStorage) : BbrStorage :=
  mkBbrStorage (node_ s) (database_ s) (database_name_ s) (write_statement_ s)
    (read_statement_ s) (message_result_ s) (current_message_row_ s)
    (all_topics_and_types_ s) (topics_ s) (nonce_ s) (history s ++ [e]).

(** ** Exceptions and the monad *)

Inductive exception : Type :=
| SqliteException (what : string)
| publisher_error (what : string)
| undefined_behaviour.

Inductive outcome (A : Type) : Type :=
| Returned (a : A)
| Thrown (e : exception).
Arguments Returned {A} a.
Arguments Thrown {A} e.

(** A member function: it ends by returning or by throwing, and in both
    cases leaves the object in some state. *)
Definition M (A : Type) : Type := BbrStorage -> outcome A * BbrStorage.

Definition ret {A} (a : A) : M A := fun s => (Returned a, s).

Definition throw {A} (e : exception) : M A := fun s => (Thrown e, s).

Definition bind {A B} (m : M A) (k : A -> M B) : M B :=
  fun s => match m s with
           | (Returned a, s') => k a s'
           | (Thrown e, s') => (Thrown e, s')
           end.

Definition get : M BbrStorage := fun s => (Returned s, s).

Definition modify (f : BbrStorage -> BbrStorage) : M unit :=
  fun s => (Returned tt, f s).

Declare Scope bbr_scope.
Delimit Scope bbr_scope with bbr.
Notation "'let*' x := m 'in' k" := (bind m (fun x => k))
  (at level 10, x name, m at level 100, k at level 200) : bbr_scope.
Notation "'run' m 'then' k" := (bind m (fun _ => k))
  (at level 10, m at level 100, k at level 200) : bbr_scope.

(** What the collaborators do during one call of a member function:
    nothing goes wrong, the statement's [execute_and_reset] throws, or the
    node's call throws.  Preparing a statement is taken to succeed. *)
Inductive fault : Type :=
| NoFault
| PersistenceFailure (what : string)
| PublicationFailure (what : string).

(** [rosbag2_storage::BagMetadata]; times in nanoseconds. *)
Module BagMetadata.
Record t : Type := mk
  { storage_identifier : string;
    relative_file_paths : list string;
    duration : Z;
    starting_time : Z;
    message_count : Z;
    topics_with_message_count : list (TopicMetadata.t * Z);
    bag_size : Z }.
End BagMetadata.

(** ** Member functions *)

Section MemberFunctions.

Context {helper_ : BbrHelper}.

Context {bare_columns_ : BareColumns}.

Open Scope bbr_scope.

(** The tables right after [initialize]. *)
Definition initialize : M unit :=
  modify (set_database_ (mkSqliteWrapper [] [] 0%Z)).

(** The constructor, with the value drawn by [helper_->createNonce()],
    followed by the part of [open] that attaches the database. *)
Definition BbrStorage_ctor (created_nonce : blob) (database_name : string)
    (db : SqliteWrapper) : BbrStorage :=
  {| node_ := [];
     database_ := db;
     database_name_ := database_name;
     write_statement_ := false;
     read_statement_ := false;
     message_result_ := [];
     current_message_row_ := 0;
     all_topics_and_types_ := [];
     topics_ := ∅;
     nonce_ := created_nonce;
     history := [] |}.

(** [open] with a writing flag on a bag without metadata: the tables are
    created empty. *)
Definition open_read_write (created_nonce : blob) (database_name : string)
    : BbrStorage :=
  (initialize (BbrStorage_ctor created_nonce database_name
                 (mkSqliteWrapper [] [] 0%Z))).2.

(** [open] with [READ_ONLY] on an existing database file. *)
Definition open_read_only (created_nonce : blob) (database_name : string)
    (db : SqliteWrapper) : BbrStorage :=
  BbrStorage_ctor created_nonce database_name db.

Definition prepare_for_writing : M unit :=
  modify (set_write_statement_ true).

Definition prepare_for_reading : M unit :=
  modify (fun s => set_read_cursor (select_messages_ordered (database_ s)) 0 s).

(** [insert_topic->bind(...); insert_topic->execute_and_reset();] *)
Definition execute_insert_topic (f : fault) (topic : TopicMetadata.t)
    (bbr_nonce bbr_digest : blob) : M unit :=
  match f with
  | PersistenceFailure what => throw (SqliteException what)
  | _ =>
    modify (fun s =>
      let row := new_topics_row (database_ s) (TopicMetadata.name topic)
                   (TopicMetadata.type topic)
                   (TopicMetadata.serialization_format topic)
                   bbr_nonce bbr_digest in
      log (EvInsertTopic row)
        (set_database_ (insert_into_topics row (database_ s)) s))
  end.

(** [write_statement_->bind(...); write_statement_->execute_and_reset();] *)
Definition execute_insert_message (f : fault) (time_stamp topic_id : Z)
    (serialized_data bbr_digest : blob) : M unit :=
  match f with
  | PersistenceFailure what => throw (SqliteException what)
  | _ =>
    modify (fun s =>
      let row := new_messages_row (database_ s) time_stamp topic_id
                   serialized_data bbr_digest in
      log (EvInsertMessage row)
        (set_database_ (insert_into_messages row (database_ s)) s))
  end.

(** [node_->create_record(...)] and [node_->publish_checkpoint(...)]. *)
Definition node_receive (f : fault) (c : node_call) : M unit :=
  match f with
  | PublicationFailure what => throw (publisher_error what)
  | _ => modify (fun s => log (EvNode c) (set_node_ (node_ s ++ [c]) s))
  end.

(** [nonce_ = ...]. *)
Definition assign_nonce_ (n : blob) : M unit :=
  modify (fun s => log (EvNonce n) (set_nonce_ n s)).

(** [topic_entry->second.digest = ...] through the iterator into
    [topics_]. *)
Definition assign_entry (name : string) (entry : TopicInfo.t) : M unit :=
  modify (fun s =>
    log (EvDigest name (TopicInfo.digest entry))
      (set_topics_ (<[name := entry]> (topics_ s)) s)).

(** [topics_.emplace(name, info)]: no effect on a key that is present. *)
Definition emplace (name : string) (info : TopicInfo.t) : M unit :=
  modify (fun s =>
    match topics_ s !! name with
    | Some _ => s
    | None => log (EvEmplace name info)
                (set_topics_ (<[name := info]> (topics_ s)) s)
    end).

Definition get_last_insert_id : M Z :=
  let* s := get in ret (last_insert_id (database_ s)).

Definition unknown_topic (name : string) : exception :=
  SqliteException
    (String.append "Topic '"
       (String.append name
          "' has not been created yet! Call 'create_topic' first.")).

Definition write (f : fault) (message : SerializedBagMessage.t) : M unit :=
  let* s0 := get in
  run (if write_statement_ s0 then ret tt else prepare_for_writing) then
  let* s := get in
  match topics_ s !! SerializedBagMessage.topic_name message with
  | None => throw (unknown_topic (SerializedBagMessage.topic_name message))
  | Some found =>
    let topic_entry :=
      TopicInfo.mk (TopicInfo.id found)
        (computeMessageDigest (TopicInfo.digest found) message)
        (TopicInfo.nonce found) in
    run assign_entry (SerializedBagMessage.topic_name message) topic_entry then
    run execute_insert_message f (SerializedBagMessage.time_stamp message)
          (TopicInfo.id topic_entry)
          (SerializedBagMessage.serialized_data message)
          (TopicInfo.digest topic_entry) then
    node_receive f
      (publish_checkpoint (TopicInfo.digest topic_entry)
         (TopicInfo.nonce topic_entry) message)
  end.

Definition has_next : M bool :=
  let* s0 := get in
  run (if read_statement_ s0 then ret tt else prepare_for_reading) then
  let* s := get in
  ret (negb (current_message_row_ s =? length (message_result_ s))).

(** Dereferencing the end iterator is undefined. *)
Definition read_next : M SerializedBagMessage.t :=
  let* s0 := get in
  run (if read_statement_ s0 then ret tt else prepare_for_reading) then
  let* s := get in
  match message_result_ s !! current_message_row_ s with
  | None => throw undefined_behaviour
  | Some (data, timestamp, name) =>
    run modify (set_current_message_row_ (S (current_message_row_ s))) then
    ret (SerializedBagMessage.mk data timestamp name)
  end.

Definition fill_topics_and_types : M unit :=
  modify (fun s =>
    set_all_topics_and_types_
      (all_topics_and_types_ s ++ select_topics_ordered (database_ s)) s).

Definition get_all_topics_and_types : M (list TopicMetadata.t) :=
  let* s0 := get in
  run (match all_topics_and_types_ s0 with
       | [] => fill_topics_and_types
       | _ => ret tt
       end) then
  let* s := get in
  ret (all_topics_and_types_ s).

Definition create_topic (f : fault) (topic : TopicMetadata.t) : M unit :=
  let* s := get in
  match topics_ s !! TopicMetadata.name topic with
  | Some _ => ret tt
  | None =>
    let bbr_nonce := nonce_ s in
    let bbr_digest := computeTopicDigest bbr_nonce topic in
    run assign_nonce_ (computeTopicNonce bbr_digest topic) then
    run execute_insert_topic f topic bbr_nonce bbr_digest then
    let* rowid := get_last_insert_id in
    let topic_info :=
      TopicInfo.mk (static_cast_int rowid) bbr_digest bbr_digest in
    run node_receive f (create_record bbr_digest topic) then
    emplace (TopicMetadata.name topic) topic_info
  end.

(** The body is commented out in the source. *)
Definition remove_topic (topic : TopicMetadata.t) : M unit := ret tt.

(** One iteration of the loop of [get_metadata] over the query results;
    the accumulator is [topics_with_message_count], [message_count],
    [min_time], [max_time]. *)
Definition get_metadata_step
    (acc : list (TopicMetadata.t * Z) * Z * Z * Z) (result : summary_row)
    : list (TopicMetadata.t * Z) * Z * Z * Z :=
  let '(with_count, message_count, min_time, max_time) := acc in
  let '(name, type, format, count, min_stamp, max_stamp) := result in
  let count := static_cast_int count in
  (with_count ++ [(TopicMetadata.mk name type format, static_cast_size_t count)],
   static_cast_size_t (message_count + static_cast_size_t count),
   if (min_stamp <? min_time)%Z then min_stamp else min_time,
   if (max_stamp >? max_time)%Z then max_stamp else max_time).

(** [calculate_directory_size] reads the file system and is an input. *)
Definition get_metadata (calculate_directory_size : string -> Z)
    : M BagMetadata.t :=
  let* s := get in
  let query_results := select_summary (database_ s) in
  let '(with_count, message_count, min_time, max_time) :=
    fold_left get_metadata_step query_results ([], 0%Z, INT64_MAX, 0%Z) in
  let min_time := if (message_count =? 0)%Z then 0%Z else min_time in
  let max_time := if (message_count =? 0)%Z then 0%Z else max_time in
  ret {| BagMetadata.storage_identifier := "bbr";
         BagMetadata.relative_file_paths := [database_name_ s];
         BagMetadata.duration := wrap_int64 (max_time - min_time);
         BagMetadata.starting_time := min_time;
         BagMetadata.message_count := message_count;
         BagMetadata.topics_with_message_count := with_count;
         BagMetadata.bag_size := calculate_directory_size (database_name_ s) |}.

(** ** Sessions

    The host calls the member functions one after the other; a call that
    throws leaves the object as it was at the throw, and the host may go
    on calling. *)
Inductive call : Type :=
| call_create_topic (f : fault) (topic : TopicMetadata.t)
| call_write (f : fault) (message : SerializedBagMessage.t)
| call_remove_topic (topic : TopicMetadata.t).

Definition perform (c : call) : M unit :=
  match c with
  | call_create_topic f topic => create_topic f topic
  | call_write f message => write f message
  | call_remove_topic topic => remove_topic topic
  end.

Fixpoint perform_all (cs : list call) (s : BbrStorage) : BbrStorage :=
  match cs with
  | [] => s
  | c :: cs => perform_all cs (perform c s).2
  end.

(** The replay loop of a reader:
    [while (has_next()) { out.push_back(read_next()); }],
    with a bound on the number of iterations. *)
Fixpoint replay (fuel : nat) : M (list SerializedBagMessage.t) :=
  match fuel with
  | O => ret []
  | S fuel =>
    let* more := has_next in
    if more
    then let* message := read_next in
         let* rest := replay fuel in
         ret (message :: rest)
    else ret []
  end.

End MemberFunctions.

(** ** A reference helper

    Modelled from the spec: the bodies of the BbrHelper functions are not
    part of [bbr_storage.cpp].  Section 4.2 gives all three the shape
    [H(prefix ‖ canonicalEncode(input))]; here [H] is left out, so a digest
    is the transcript it commits to, and the encoding terminates every
    string with a zero byte.  It serves to run the member functions on
    concrete inputs. *)
Definition canonicalEncode_string (s : string) : blob :=
  String.list_byte_of_string s ++ [x00].

Definition canonicalEncode_topic (topic : TopicMetadata.t) : blob :=
  canonicalEncode_string (TopicMetadata.name topic) ++
  canonicalEncode_string (TopicMetadata.type topic) ++
  canonicalEncode_string (TopicMetadata.serialization_format topic).

Definition transcript_helper : BbrHelper :=
  {| computeTopicDigest nonce topic := nonce ++ canonicalEncode_topic topic;
     computeMessageDigest digest message :=
       digest ++ SerializedBagMessage.serialized_data message;
     computeTopicNonce digest topic := digest ++ canonicalEncode_topic topic |}.

(** ** A reference choice of bare columns

    The first row of the group that carries the largest timestamp; it
    serves to run [get_metadata] on concrete inputs. *)
Definition row_of_largest_stamp
    (group : list (messages_row.t * topics_row.t))
    : option (messages_row.t * topics_row.t) :=
  let stamps := map (fun p => messages_row.timestamp p.1) group in
  head (filter (fun p => messages_row.timestamp p.1
                         = foldr Z.max (hd 0%Z stamps) stamps) group).

#[global, refine] Instance largest_stamp_row : BareColumns :=
  {| bare_columns_row := row_of_largest_stamp |}.
Proof.
  - intros group row Hrow. unfold row_of_largest_stamp in Hrow.
    apply head_Some_elem_of, list_elem_of_filter in Hrow. tauto.
  - intros group Hne. unfold row_of_largest_stamp.
    destruct group as [|p group]; [done|].
    set (stamp := fun q : messages_row.t * topics_row.t =>
                    messages_row.timestamp q.1).
    assert (Hin : foldr Z.max (stamp p) (map stamp (p :: group))
                  ∈ map stamp (p :: group)).
    { assert (Hgen : forall l : list Z,
                foldr Z.max (stamp p) l = stamp p \/ foldr Z.max (stamp p) l ∈ l).
      { induction l as [|a l Hin]; simpl; [now left|].
        destruct (Z.max_spec a (foldr Z.max (stamp p) l)) as [[_ ->]|[_ ->]].
        - destruct Hin as [->|Hin]; [now left|right; now right].
        - right. now left. }
      destruct (Hgen (map stamp (p :: group))) as [->|Hin];
        [now left|exact Hin]. }
    apply list_elem_of_fmap in Hin as (q & Hq & Hqin).
    destruct (filter _ (p :: group)) as [|r rest] eqn:Hfilter; [|now eexists].
    exfalso. eapply (filter_nil_not_elem_of _ _ q Hfilter); [|exact Hqin].
    unfold stamp in Hq. simpl. now rewrite <- Hq.
Defined.

(** ** Derived notions used in the statements *)

(** The object after the lazy [prepare_for_writing] at the start of
    [write]. *)
Definition after_prepare_for_writing (s : BbrStorage) : BbrStorage :=
  if write_statement_ s then s else set_write_statement_ true s.

Definition row_metadata (row : topics_row.t) : TopicMetadata.t :=
  TopicMetadata.mk (topics_row.name row) (topics_row.type row)
    (topics_row.serialization_format row).

(** The topics of the [create_topic] calls of a session, in call order. *)
Definition declared (cs : list call) : list TopicMetadata.t :=
  omap (fun c => match c with
                 | call_create_topic _ topic => Some topic
                 | _ => None
                 end) cs.

(** The messages of the [write] calls of a session for one topic name, in
    call order. *)
Definition written_to (name : string) (cs : list call)
    : list SerializedBagMessage.t :=
  omap (fun c => match c with
                 | call_write _ message =>
                   if decide (SerializedBagMessage.topic_name message = name)
                   then Some message else None
                 | _ => None
                 end) cs.

Definition fault_of (c : call) : fault :=
  match c with
  | call_create_topic f _ => f
  | call_write f _ => f
  | call_remove_topic _ => NoFault
  end.

Definition fault_free (cs : list call) : Prop :=
  Forall (fun c => fault_of c = NoFault) cs.

Definition declares (c : call) : Prop :=
  match c with call_create_topic _ _ => True | _ => False end.

(** What [write] computes for a message of a tracked topic: the entry
    behind the iterator after the assignment, the row bound to the insert
    statement, and the call made on the node. *)
Definition appended_entry {helper_ : BbrHelper} (found : TopicInfo.t)
    (message : SerializedBagMessage.t) : TopicInfo.t :=
  TopicInfo.mk (TopicInfo.id found)
    (computeMessageDigest (TopicInfo.digest found) message)
    (TopicInfo.nonce found).

Definition appended_row {helper_ : BbrHelper} (db : SqliteWrapper)
    (found : TopicInfo.t) (message : SerializedBagMessage.t) : messages_row.t :=
  new_messages_row db (SerializedBagMessage.time_stamp message)
    (TopicInfo.id found) (SerializedBagMessage.serialized_data message)
    (computeMessageDigest (TopicInfo.digest found) message).

Definition appended_checkpoint {helper_ : BbrHelper} (found : TopicInfo.t)
    (message : SerializedBagMessage.t) : node_call :=
  publish_checkpoint (computeMessageDigest (TopicInfo.digest found) message)
    (TopicInfo.nonce found) message.

(** What [create_topic] computes for an untracked topic: the row bound to
    the insert statement and the entry handed to [emplace]. *)
Definition declared_row {helper_ : BbrHelper} (s : BbrStorage)
    (topic : TopicMetadata.t) : topics_row.t :=
  new_topics_row (database_ s) (TopicMetadata.name topic)
    (TopicMetadata.type topic) (TopicMetadata.serialization_format topic)
    (nonce_ s) (computeTopicDigest (nonce_ s) topic).

Definition declared_entry {helper_ : BbrHelper} (s : BbrStorage)
    (topic : TopicMetadata.t) : TopicInfo.t :=
  TopicInfo.mk (static_cast_int (topics_row.id (declared_row s topic)))
    (computeTopicDigest (nonce_ s) topic)
    (computeTopicDigest (nonce_ s) topic).

(** The digest the record store holds for a topic id: that of the
    topic's last message row, or of its topics row when it has none. *)
Definition durable_digest (db : SqliteWrapper) (topic_id : Z) : option blob :=
  match last (filter (fun m => messages_row.topic_id m = topic_id) (messages db)) with
  | Some row => Some (messages_row.bbr_digest row)
  | None =>
    topics_row.bbr_digest <$>
      head (filter (fun t => topics_row.id t = topic_id) (topics db))
  end.

(** The chain over the topic declarations, read off the topics table:
    the rows are those of the declared topics [ts]; each row's digest is
    the topic digest of its own nonce; the first nonce is the one drawn at
    construction and every later one is derived from the row before it;
    [nonce_] is derived from the last row; the tracked names are the
    declared ones. *)
Definition chain_invariant {helper_ : BbrHelper} (created_nonce : blob) (ts : list TopicMetadata.t)
    (s : BbrStorage) : Prop :=
  let rows := topics (database_ s) in
  map row_metadata rows = ts /\
  (forall row, row ∈ rows ->
     topics_row.bbr_digest row =
       computeTopicDigest (topics_row.bbr_nonce row) (row_metadata row)) /\
  (forall row, head rows = Some row -> topics_row.bbr_nonce row = created_nonce) /\
  (forall i r1 r2, rows !! i = Some r1 -> rows !! S i = Some r2 ->
     topics_row.bbr_nonce r2 =
       computeTopicNonce (topics_row.bbr_digest r1) (row_metadata r1)) /\
  nonce_ s =
    from_option
      (fun row => computeTopicNonce (topics_row.bbr_digest row) (row_metadata row))
      created_nonce (last rows) /\
  (forall name, is_Some (topics_ s !! name) <-> name ∈ map TopicMetadata.name ts).

(** The digest a collaborator was handed: by a completed insert, and by a
    call to the node. *)
Definition persisted_digests (h : list event) : list blob :=
  omap (fun e => match e with
                 | EvInsertTopic row => Some (topics_row.bbr_digest row)
                 | EvInsertMessage row => Some (messages_row.bbr_digest row)
                 | _ => None
                 end) h.

Definition call_digest (c : node_call) : blob :=
  match c with
  | create_record digest _ => digest
  | publish_checkpoint digest _ _ => digest
  end.

(** ** A concrete session

    The scenario of the specification's section 8, run with the reference
    helper: a 32-byte zero nonce, topic A with two messages, then topic
    B. *)
Definition nonce0 : blob := repeat x00 32.

Definition topic_A : TopicMetadata.t := TopicMetadata.mk "A" "T" "F".

Definition topic_B : TopicMetadata.t := TopicMetadata.mk "B" "T2" "F2".

Definition message_P1 : SerializedBagMessage.t :=
  SerializedBagMessage.mk [x50; x31] 100 "A".

Definition message_P2 : SerializedBagMessage.t :=
  SerializedBagMessage.mk [x50; x32] 200 "A".

Definition session_opened : BbrStorage := open_read_write nonce0 "bag.db3".

Definition session_A : BbrStorage :=
  (create_topic (helper_ := transcript_helper) NoFault topic_A session_opened).2.

Definition scenario : list call :=
  [call_create_topic NoFault topic_A; call_write NoFault message_P1;
   call_write NoFault message_P2; call_create_topic NoFault topic_B].

Definition session_A_P1 : BbrStorage :=
  (write (helper_ := transcript_helper) NoFault message_P1 session_A).2.

Definition digest0_A : blob :=
  computeTopicDigest (BbrHelper := transcript_helper) nonce0 topic_A.

Definition digest1_A : blob :=
  computeMessageDigest (BbrHelper := transcript_helper) digest0_A message_P1.

(** The same append when the insert statement fails. *)
Definition session_A_P1_failed : BbrStorage :=
  (write (helper_ := transcript_helper) (PersistenceFailure "disk I/O error")
     message_P1 session_A).2.

(** A declaration of topic A whose insert statement fails. *)
Definition session_A_failed : BbrStorage :=
  (create_topic (helper_ := transcript_helper)
     (PersistenceFailure "disk I/O error") topic_A session_opened).2.

(** ** Notions for the read-back *)

(** The message [read_next] builds from the row under the cursor. *)
Definition read_row (row : message_row) : SerializedBagMessage.t :=
  let '(data, timestamp, name) := row in
  SerializedBagMessage.mk data timestamp name.

Definition joined_message (p : messages_row.t * topics_row.t)
    : SerializedBagMessage.t :=
  SerializedBagMessage.mk (messages_row.data p.1) (messages_row.timestamp p.1)
    (topics_row.name p.2).

(** The message whose row a call inserted into the messages table, if it
    inserted one. *)
Definition persisted_by {helper_ : BbrHelper} (c : call) (s : BbrStorage)
    : list SerializedBagMessage.t :=
  match c with
  | call_write _ message =>
    if decide (length (messages (database_ (perform c s).2))
               = length (messages (database_ s)))
    then [] else [message]
  | _ => []
  end.

(** The messages persisted by a session, in the order of the calls. *)
Fixpoint persisted {helper_ : BbrHelper} (cs : list call) (s : BbrStorage)
    : list SerializedBagMessage.t :=
  match cs with
  | [] => []
  | c :: cs => persisted_by c s ++ persisted cs (perform c s).2
  end.

Definition stamp_le (a b : SerializedBagMessage.t) : Prop :=
  (SerializedBagMessage.time_stamp a ≤ SerializedBagMessage.time_stamp b)%Z.

Definition stamp_lt (a b : SerializedBagMessage.t) : Prop :=
  (SerializedBagMessage.time_stamp a < SerializedBagMessage.time_stamp b)%Z.

#[global] Instance stamp_lt_dec a b : Decision (stamp_lt a b).
Proof. unfold stamp_lt. apply _. Defined.

Definition on_topic (name : string) (message : SerializedBagMessage.t) : Prop :=
  SerializedBagMessage.topic_name message = name.

#[global] Instance on_topic_dec name message : Decision (on_topic name message).
Proof. unfold on_topic. apply _. Defined.

(** What a session keeps true of the record store: the join pairs every
    message row, in rowid order, with one topics row, and read as
    messages the pairs are the persisted messages [ms]; topic ids are
    distinct and at most the number of topic rows; every tracked entry
    and every message row refers to a topics row. *)
Definition store_invariant (ms : list SerializedBagMessage.t) (s : BbrStorage)
    : Prop :=
  let db := database_ s in
  map joined_message (messages_join_topics db) = ms /\
  map fst (messages_join_topics db) = messages db /\
  NoDup (map topics_row.id (topics db)) /\
  (forall name info, topics_ s !! name = Some info ->
     exists row, row ∈ topics db /\
       topics_row.id row = TopicInfo.id info /\ topics_row.name row = name) /\
  (forall m, m ∈ messages db ->
     messages_row.topic_id m ∈ map topics_row.id (topics db)) /\
  (forall row, row ∈ topics db ->
     (1 ≤ topics_row.id row ≤ Z.of_nat (length (topics db)))%Z).

(** Two messages of topic A appended with decreasing timestamps. *)
Definition message_late : SerializedBagMessage.t :=
  SerializedBagMessage.mk [x50; x31] 200 "A".

Definition message_early : SerializedBagMessage.t :=
  SerializedBagMessage.mk [x50; x32] 100 "A".

Definition late_then_early : list call :=
  [call_create_topic NoFault topic_A; call_write NoFault message_late;
   call_write NoFault message_early].

(** ** Notions for the further properties *)

(** The ids of a table are 1, 2, 3, ... in insertion order. *)
Definition numbered_from_one (ids : list Z) : Prop :=
  forall i x, ids !! i = Some x -> x = (Z.of_nat i + 1)%Z.

(** The in-memory digest of every tracked topic is the digest the record
    store holds for its id. *)
Definition memory_matches_store (s : BbrStorage) : Prop :=
  forall name info,
    topics_ s !! name = Some info ->
    durable_digest (database_ s) (TopicInfo.id info)
      = Some (TopicInfo.digest info).

(** The message a verifier rebuilds from a messages row and the name of
    its topic. *)
Definition row_message (name : string) (row : messages_row.t)
    : SerializedBagMessage.t :=
  SerializedBagMessage.mk (messages_row.data row) (messages_row.timestamp row)
    name.

(** Every messages row continues the chain of its topic: its digest is
    [computeMessageDigest] of the digest the store held for the topic
    just before the row (that of the topic's previous messages row, or of
    its topics row) and of the row's message. *)
Definition store_verifies {helper_ : BbrHelper} (db : SqliteWrapper) : Prop :=
  forall before row after,
    messages db = before ++ row :: after ->
    exists t previous,
      t ∈ topics db /\
      topics_row.id t = messages_row.topic_id row /\
      durable_digest (mkSqliteWrapper (topics db) before 0) (messages_row.topic_id row)
        = Some previous /\
      messages_row.bbr_digest row
        = computeMessageDigest previous (row_message (topics_row.name t) row).

(** Columns of a row of the summary query. *)
Definition summary_name (r : summary_row) : string :=
  let '(name, _, _, _, _, _) := r in name.

Definition summary_count (r : summary_row) : Z :=
  let '(_, _, _, count, _, _) := r in count.

Definition summary_min (r : summary_row) : Z :=
  let '(_, _, _, _, min_stamp, _) := r in min_stamp.

Definition summary_max (r : summary_row) : Z :=
  let '(_, _, _, _, _, max_stamp) := r in max_stamp.

(** ** Opening a bag

    [rosbag2_storage::storage_interfaces::IOFlag]. *)
Inductive IOFlag : Type := READ_ONLY | READ_WRITE | APPEND.

#[global] Instance IOFlag_eq_dec : EqDecision IOFlag.
Proof. solve_decision. Defined.

(** What the [SqliteWrapper] constructor finds behind a path: a file
    without tables (a file it has just created), or the tables of an
    existing database. *)
Inductive database_file : Type :=
| new_file
| with_tables (db : SqliteWrapper).

(** The surroundings [open] looks at, none of them defined in
    [bbr_storage.cpp]: [MetadataIo::read_metadata] (which returns the
    metadata or throws a [std::exception] with a message), the state of
    [std::ifstream(path).good()], the two [FilesystemHelper] functions,
    the [SqliteWrapper] constructor, and the message with which SQLite
    refuses a [CREATE TABLE] for a table that exists. *)
Record Surroundings : Type := mkSurroundings
  { read_metadata : string -> BagMetadata.t + string;
    ifstream_good : string -> bool;
    get_folder_name : string -> string;
    concat : list string -> string;
    SqliteWrapper_ctor : string -> IOFlag -> outcome database_file;
    table_exists_what : string }.

(** What [open] can throw: the [std::runtime_error]s it builds, and
    exceptions it does not catch. *)
Inductive open_exception : Type :=
| runtime_error (what : string)
| uncaught (e : exception).

(** How [open] ends.  An object whose [database_] is still null is
    represented by the value of its [database_name_] alone. *)
Inductive opened : Type :=
| Opened (s : BbrStorage)
| OpenedWithoutTables (database_name : string)
| NotOpened (e : open_exception) (database_name : string)
| ThrownAfterAttaching (e : open_exception) (s : BbrStorage).

Definition is_read_only (io_flag : IOFlag) : bool :=
  bool_decide (io_flag = READ_ONLY).

Definition load_metadata (env : Surroundings) (uri : string)
    : option BagMetadata.t :=
  match read_metadata env uri with
  | inl metadata => Some metadata
  | inr _ => None
  end.

Definition database_exists (env : Surroundings) (uri : string) : bool :=
  ifstream_good env uri.

Definition failed_to_read (uri why : string) : open_exception :=
  runtime_error
    (String.append "Failed to read from bag '"
       (String.append uri (String.append "': " why))).

(** The constructor followed by [open(uri, io_flag)]. *)
Definition open (env : Surroundings) (created_nonce : blob) (uri : string)
    (io_flag : IOFlag) : opened :=
  let metadata :=
    if is_read_only io_flag then load_metadata env uri else None in
  let named : open_exception + string :=
    match metadata with
    | Some found =>
      match BagMetadata.relative_file_paths found with
      | [] => inl (failed_to_read uri "Missing database file path in metadata")
      | path :: _ => inr path
      end
    | None =>
      if is_read_only io_flag
      then inl (failed_to_read uri "No metadata found.")
      else inr (String.append (get_folder_name env uri) ".db3")
    end in
  match named with
  | inl e => NotOpened e EmptyString
  | inr database_name =>
    let database_path := concat env [uri; database_name] in
    if is_read_only io_flag && negb (database_exists env database_path)
    then NotOpened
           (failed_to_read uri
              (String.append "File '"
                 (String.append database_name "' does not exist.")))
           database_name
    else
      match SqliteWrapper_ctor env database_path io_flag with
      | Thrown (SqliteException what) =>
        NotOpened
          (runtime_error (String.append "Failed to setup storage. Error: " what))
          database_name
      | Thrown e => NotOpened (uncaught e) database_name
      | Returned file =>
        match metadata, file with
        | Some _, with_tables db =>
          Opened (BbrStorage_ctor created_nonce database_name db)
        | Some _, new_file => OpenedWithoutTables database_name
        | None, new_file =>
          Opened (initialize
                    (BbrStorage_ctor created_nonce database_name
                       (mkSqliteWrapper [] [] 0%Z))).2
        | None, with_tables db =>
          ThrownAfterAttaching
            (uncaught (SqliteException (table_exists_what env)))
            (BbrStorage_ctor created_nonce database_name db)
        end
      end
  end.

(** ** Further concrete inputs *)

(** The object after the scenario of section 8. *)
Definition session_scenario : BbrStorage :=
  perform_all (helper_ := transcript_helper) scenario session_opened.

Definition message_P3 : SerializedBagMessage.t :=
  SerializedBagMessage.mk [x50; x33] 300 "A".

(** A bag folder holding a metadata file that names [bag.db3], and that
    database with the tables of the scenario. *)
Definition bag_metadata : BagMetadata.t :=
  BagMetadata.mk "bbr" ["bag.db3"] 100 100 2 [] 4096.

Definition bag_on_disk : Surroundings :=
  {| read_metadata uri := inl bag_metadata;
     ifstream_good path := true;
     get_folder_name uri := uri;
     concat parts := foldr String.append EmptyString parts;
     SqliteWrapper_ctor path io_flag :=
       Returned (with_tables (database_ session_scenario));
     table_exists_what := "table topics already exists" |}.

(** An empty folder: no metadata, no file. *)
Definition empty_folder : Surroundings :=
  {| read_metadata uri := inr "no metadata.yaml";
     ifstream_good path := false;
     get_folder_name uri := uri;
     concat parts := foldr String.append EmptyString parts;
     SqliteWrapper_ctor path io_flag := Returned new_file;
     table_exists_what := "table topics already exists" |}.

(** ** Rows without a topic *)

(** The message the join yields for a messages row: that of the row
    and of the first topics row whose id is the row's [topic_id], if
    there is one. *)
Definition matched_message (db : SqliteWrapper) (m : messages_row.t)
    : option SerializedBagMessage.t :=
  (fun t => joined_message (m, t)) <$>
  head (filter (fun t => topics_row.id t = messages_row.topic_id m) (topics db)).

(** A database in which the second of three messages rows refers to a
    topic id that no topics row has. *)
Definition database_with_orphan : SqliteWrapper :=
  {| topics := [topics_row.mk 1 "A" "T" "F" nonce0 digest0_A];
     messages := [messages_row.mk 1 1 300%Z [x50; x31] digest1_A;
                  messages_row.mk 2 7 200 [x50; x32] digest1_A;
                  messages_row.mk 3 1 100 [x50; x33] digest1_A];
     last_insert_id := 3 |}.

(** A database whose topic B was declared, and written to, before its
    topic A. *)
Definition database_B_before_A : SqliteWrapper :=
  {| topics := [topics_row.mk 1 "B" "T2" "F2" nonce0 digest0_A;
                topics_row.mk 2 "A" "T" "F" digest0_A digest0_A];
     messages := [messages_row.mk 1 1 300 [x50; x31] digest1_A;
                  messages_row.mk 2 2 100 [x50; x32] digest1_A;
                  messages_row.mk 3 1 200 [x50; x33] digest1_A];
     last_insert_id := 3 |}.

(** ** The shape of the program-order log *)

(** The calls made on the node, read off the log. *)
Definition emissions (h : list event) : list node_call :=
  omap (fun e => match e with EvNode c => Some c | _ => None end) h.

(** A log made of completed declarations and completed appends, one
    after the other.  A declaration leaves: the assignment of [nonce_],
    the insert of the topics row, the call on the node with that row's
    digest and metadata, and only then the entry stored in [topics_].  An
    append leaves: the assignment of the entry's digest, the insert of
    the messages row with that digest and the message's data and
    timestamp, and the call on the node with that digest and the
    message. *)
Inductive in_program_order : list event -> Prop :=
| nothing_logged : in_program_order []
| declaration_logged h nonce row entry :
    in_program_order h ->
    TopicInfo.digest entry = topics_row.bbr_digest row ->
    in_program_order
      (h ++ [EvNonce nonce;
             EvInsertTopic row;
             EvNode (create_record (topics_row.bbr_digest row) (row_metadata row));
             EvEmplace (topics_row.name row) entry])
| append_logged h row nonce message :
    in_program_order h ->
    messages_row.data row = SerializedBagMessage.serialized_data message ->
    messages_row.timestamp row = SerializedBagMessage.time_stamp message ->
    in_program_order
      (h ++ [EvDigest (SerializedBagMessage.topic_name message)
               (messages_row.bbr_digest row);
             EvInsertMessage row;
             EvNode (publish_checkpoint (messages_row.bbr_digest row) nonce message)]).

(** The object as [create_topic] leaves it when the call on the node
    throws: its state at the moment of the emission. *)
Definition session_A_at_emission : BbrStorage :=
  (create_topic (helper_ := transcript_helper)
     (PublicationFailure "no route") topic_A session_opened).2.

(** * Properties *)

Section Properties.

Context {helper_ : BbrHelper}.

(** ** Equations of the member functions *)

Lemma create_topic_tracked f topic s info :
  topics_ s !! TopicMetadata.name topic = Some info ->
  create_topic f topic s = (Returned tt, s).
Proof.
  intros Hfound. unfold create_topic, bind, get. now rewrite Hfound.
Qed.

Lemma write_untracked f message s :
  topics_ s !! SerializedBagMessage.topic_name message = None ->
  write f message s =
    (Thrown (unknown_topic (SerializedBagMessage.topic_name message)),
     after_prepare_for_writing s).
Proof.
  intros Hnone. unfold write, bind, get, after_prepare_for_writing.
  destruct (write_statement_ s); simpl; now rewrite Hnone.
Qed.

Lemma after_prepare_for_writing_frame s :
  let s' := after_prepare_for_writing s in
  topics_ s' = topics_ s /\ nonce_ s' = nonce_ s /\
  database_ s' = database_ s /\ node_ s' = node_ s /\
  history s' = history s /\ read_statement_ s' = read_statement_ s.
Proof.
  unfold after_prepare_for_writing. destruct (write_statement_ s); now simpl.
Qed.

Lemma write_tracked f message s found :
  topics_ s !! SerializedBagMessage.topic_name message = Some found ->
  let s' := (write f message s).2 in
  (write f message s).1 =
    match f with
    | NoFault => Returned tt
    | PersistenceFailure what => Thrown (SqliteException what)
    | PublicationFailure what => Thrown (publisher_error what)
    end /\
  topics_ s' =
    <[SerializedBagMessage.topic_name message := appended_entry found message]>
      (topics_ s) /\
  nonce_ s' = nonce_ s /\
  database_ s' =
    match f with
    | PersistenceFailure _ => database_ s
    | _ => insert_into_messages (appended_row (database_ s) found message)
             (database_ s)
    end /\
  node_ s' =
    match f with
    | NoFault => node_ s ++ [appended_checkpoint found message]
    | _ => node_ s
    end /\
  history s' =
    history s ++
    EvDigest (SerializedBagMessage.topic_name message)
      (computeMessageDigest (TopicInfo.digest found) message) ::
    match f with
    | NoFault =>
      [EvInsertMessage (appended_row (database_ s) found message);
       EvNode (appended_checkpoint found message)]
    | PersistenceFailure _ => []
    | PublicationFailure _ =>
      [EvInsertMessage (appended_row (database_ s) found message)]
    end /\
  read_statement_ s' = read_statement_ s.
Proof.
  intros Hfound. unfold write, bind, get.
  destruct f, (write_statement_ s); simpl; rewrite Hfound; simpl;
    rewrite <- ?app_assoc; simpl; repeat split; reflexivity.
Qed.

Lemma create_topic_untracked f topic s :
  topics_ s !! TopicMetadata.name topic = None ->
  let s' := (create_topic f topic s).2 in
  (create_topic f topic s).1 =
    match f with
    | NoFault => Returned tt
    | PersistenceFailure what => Thrown (SqliteException what)
    | PublicationFailure what => Thrown (publisher_error what)
    end /\
  topics_ s' =
    match f with
    | NoFault => <[TopicMetadata.name topic := declared_entry s topic]> (topics_ s)
    | _ => topics_ s
    end /\
  nonce_ s' = computeTopicNonce (computeTopicDigest (nonce_ s) topic) topic /\
  database_ s' =
    match f with
    | PersistenceFailure _ => database_ s
    | _ => insert_into_topics (declared_row s topic) (database_ s)
    end /\
  node_ s' =
    match f with
    | NoFault => node_ s ++ [create_record (computeTopicDigest (nonce_ s) topic) topic]
    | _ => node_ s
    end /\
  history s' =
    history s ++
    EvNonce (computeTopicNonce (computeTopicDigest (nonce_ s) topic) topic) ::
    match f with
    | NoFault =>
      [EvInsertTopic (declared_row s topic);
       EvNode (create_record (computeTopicDigest (nonce_ s) topic) topic);
       EvEmplace (TopicMetadata.name topic) (declared_entry s topic)]
    | PersistenceFailure _ => []
    | PublicationFailure _ => [EvInsertTopic (declared_row s topic)]
    end /\
  read_statement_ s' = read_statement_ s.
Proof.
  intros Hnone. unfold create_topic, bind, get.
  rewrite Hnone. destruct f; simpl; rewrite ?Hnone; simpl;
    rewrite <- ?app_assoc; simpl; repeat split; reflexivity.
Qed.

End Properties.

(** ** The nonce field of the chain state *)

(** C1 (evaluated at a declaration followed by an append).  [create_topic]
    stores the topic's initial digest in the [nonce] field of the
    in-memory entry, not the value of [nonce_] it captured: for topic A
    declared at the zero nonce the entry's nonce is [digest0_A], which
    differs from the captured nonce, while the persisted row holds the
    captured nonce in [bbr_nonce]; the checkpoint of the first append
    carries [digest0_A] as its nonce. *)
Theorem in_memory_nonce_is_initial_digest :
  TopicInfo.nonce <$> topics_ session_A !! "A" = Some digest0_A /\
  digest0_A <> nonce_ session_opened /\
  map topics_row.bbr_nonce (topics (database_ session_A)) = [nonce_ session_opened] /\
  node_ session_A_P1 =
    [create_record digest0_A topic_A;
     publish_checkpoint digest1_A digest0_A message_P1] /\
  TopicInfo.nonce <$> topics_ session_A_P1 !! "A" = Some digest0_A.
Proof.
  repeat split; try (vm_compute; reflexivity).
  vm_compute. discriminate.
Qed.

(** ** Re-declaration, unknown topics, removal *)

Section NoOps.

Context {helper_ : BbrHelper}.

Context {bare_columns_ : BareColumns}.

(** C5.  [create_topic] on a name that is already a key of [topics_]
    returns without changing the object: the entry (id, digest, nonce),
    [nonce_], every other entry, both tables and the list of calls
    received by the node are what they were, whatever the collaborators
    would have done. *)
Theorem create_topic_again_is_noop f topic s info :
  topics_ s !! TopicMetadata.name topic = Some info ->
  create_topic f topic s = (Returned tt, s).
Proof. apply create_topic_tracked. Qed.

(** C6.  [write] of a message whose topic name is not a key of
    [topics_] throws the "has not been created yet" exception; the
    entries, [nonce_], both tables, the calls received by the node and
    the program-order log are unchanged (only the write statement may
    have been prepared). *)
Theorem write_unknown_topic_throws f message s :
  topics_ s !! SerializedBagMessage.topic_name message = None ->
  let r := write f message s in
  r.1 = Thrown (unknown_topic (SerializedBagMessage.topic_name message)) /\
  topics_ r.2 = topics_ s /\
  nonce_ r.2 = nonce_ s /\
  database_ r.2 = database_ s /\
  node_ r.2 = node_ s /\
  history r.2 = history s.
Proof.
  intros Hnone. simpl. rewrite (write_untracked _ _ _ Hnone). simpl.
  destruct (after_prepare_for_writing_frame s) as (? & ? & ? & ? & ? & _).
  repeat split; assumption.
Qed.

(** C9.  [remove_topic] returns without changing the object: the map
    of entries, every digest and nonce, [nonce_], the topics and messages
    tables are unchanged and the node receives no call. *)
Theorem remove_topic_is_noop topic s :
  remove_topic topic s = (Returned tt, s).
Proof. reflexivity. Qed.

(** C10.  On a database without message rows [get_metadata] returns
    a message count of zero, no per-topic counts, starting time zero and
    duration zero, and leaves the object unchanged. *)
Theorem get_metadata_without_messages calculate_directory_size s :
  messages (database_ s) = [] ->
  exists metadata,
    get_metadata calculate_directory_size s = (Returned metadata, s) /\
    BagMetadata.message_count metadata = 0%Z /\
    BagMetadata.topics_with_message_count metadata = [] /\
    BagMetadata.starting_time metadata = 0%Z /\
    BagMetadata.duration metadata = 0%Z.
Proof.
  intros Hempty.
  unfold get_metadata, bind, get, select_summary, messages_join_topics.
  rewrite Hempty. simpl. eexists. split; [reflexivity|]. simpl. auto.
Qed.

End NoOps.

Lemma create_topic_again_is_noop_witness :
  topics_ session_A !! TopicMetadata.name topic_A
    = Some (TopicInfo.mk 1 digest0_A digest0_A) /\
  create_topic (helper_ := transcript_helper) NoFault topic_A session_A
    = (Returned tt, session_A).
Proof.
  split.
  - vm_compute. reflexivity.
  - apply (create_topic_again_is_noop (helper_ := transcript_helper)
             NoFault topic_A session_A (TopicInfo.mk 1 digest0_A digest0_A)).
    vm_compute. reflexivity.
Defined.

Lemma write_unknown_topic_throws_witness :
  topics_ session_opened !! SerializedBagMessage.topic_name message_P1 = None /\
  let r := write (helper_ := transcript_helper) NoFault message_P1 session_opened in
  r.1 = Thrown (unknown_topic (SerializedBagMessage.topic_name message_P1)) /\
  topics_ r.2 = topics_ session_opened /\
  nonce_ r.2 = nonce_ session_opened /\
  database_ r.2 = database_ session_opened /\
  node_ r.2 = node_ session_opened /\
  history r.2 = history session_opened.
Proof.
  split.
  - vm_compute. reflexivity.
  - apply (write_unknown_topic_throws (helper_ := transcript_helper)
             NoFault message_P1 session_opened).
    vm_compute. reflexivity.
Defined.

Lemma get_metadata_without_messages_witness :
  messages (database_ session_A) = [] /\
  exists metadata,
    get_metadata (fun _ => 4096%Z) session_A
      = (Returned metadata, session_A) /\
    BagMetadata.message_count metadata = 0%Z /\
    BagMetadata.topics_with_message_count metadata = [] /\
    BagMetadata.starting_time metadata = 0%Z /\
    BagMetadata.duration metadata = 0%Z.
Proof.
  split.
  - vm_compute. reflexivity.
  - apply (get_metadata_without_messages (fun _ => 4096%Z) session_A).
    vm_compute. reflexivity.
Defined.

(** ** Frames of a single call *)

Section Frames.

Context {helper_ : BbrHelper}.

Lemma perform_all_app cs1 cs2 s :
  perform_all (cs1 ++ cs2) s = perform_all cs2 (perform_all cs1 s).
Proof.
  revert s. induction cs1 as [|c cs1 IH]; intros s; simpl; [reflexivity|].
  apply IH.
Qed.

(** [write] never assigns [nonce_] and never touches the topics table. *)
Lemma write_keeps_nonce_ f message s :
  nonce_ (write f message s).2 = nonce_ s.
Proof.
  destruct (topics_ s !! SerializedBagMessage.topic_name message) as [found|] eqn:E.
  - now destruct (write_tracked f message s found E) as (_ & _ & ? & _).
  - rewrite (write_untracked _ _ _ E). simpl.
    now destruct (after_prepare_for_writing_frame s) as (_ & ? & _).
Qed.

Lemma write_keeps_topics_table f message s :
  topics (database_ (write f message s).2) = topics (database_ s).
Proof.
  destruct (topics_ s !! SerializedBagMessage.topic_name message) as [found|] eqn:E.
  - destruct (write_tracked f message s found E) as (_ & _ & _ & -> & _).
    now destruct f.
  - rewrite (write_untracked _ _ _ E). simpl.
    now destruct (after_prepare_for_writing_frame s) as (_ & _ & -> & _).
Qed.

(** The set of tracked names is not changed by [write]. *)
Lemma write_keeps_tracked f message s name :
  is_Some (topics_ (write f message s).2 !! name) <-> is_Some (topics_ s !! name).
Proof.
  destruct (topics_ s !! SerializedBagMessage.topic_name message) as [found|] eqn:E.
  - destruct (write_tracked f message s found E) as (_ & -> & _).
    destruct (decide (SerializedBagMessage.topic_name message = name)) as [<-|Hne].
    + rewrite lookup_insert_eq, E. split; eauto.
    + now rewrite lookup_insert_ne.
  - rewrite (write_untracked _ _ _ E). simpl.
    now destruct (after_prepare_for_writing_frame s) as (-> & _).
Qed.

(** The entry of a tracked name after one call of the host. *)
Lemma perform_entry c s name found :
  topics_ s !! name = Some found ->
  topics_ (perform c s).2 !! name =
    Some match c with
         | call_write _ message =>
           if decide (SerializedBagMessage.topic_name message = name)
           then appended_entry found message else found
         | _ => found
         end.
Proof.
  intros Hfound. destruct c as [f topic|f message|topic]; simpl.
  - destruct (topics_ s !! TopicMetadata.name topic) as [other|] eqn:E.
    + now rewrite (create_topic_tracked _ _ _ _ E).
    + destruct (create_topic_untracked f topic s E) as (_ & -> & _).
      assert (TopicMetadata.name topic <> name) by congruence.
      destruct f; rewrite ?lookup_insert_ne; auto.
  - destruct (topics_ s !! SerializedBagMessage.topic_name message)
      as [other|] eqn:E.
    + destruct (write_tracked f message s other E) as (_ & -> & _).
      destruct (decide (SerializedBagMessage.topic_name message = name)) as [Heq|Hne].
      * rewrite Heq in *. rewrite lookup_insert_eq. congruence.
      * now rewrite lookup_insert_ne.
    + rewrite (write_untracked _ _ _ E). simpl.
      destruct (after_prepare_for_writing_frame s) as (-> & _).
      destruct (decide (SerializedBagMessage.topic_name message = name)); [congruence|done].
  - assumption.
Qed.

(** The [nonce] and [id] fields of an entry are assigned once, by
    [create_topic]; the nonce it assigns is the topic's initial digest. *)
Lemma create_topic_entry topic s :
  topics_ s !! TopicMetadata.name topic = None ->
  topics_ (create_topic NoFault topic s).2 !! TopicMetadata.name topic =
    Some (TopicInfo.mk (static_cast_int (topics_row.id (declared_row s topic)))
            (computeTopicDigest (nonce_ s) topic)
            (computeTopicDigest (nonce_ s) topic)).
Proof.
  intros Hnone.
  destruct (create_topic_untracked NoFault topic s Hnone) as (_ & -> & _).
  now rewrite lookup_insert_eq.
Qed.

Lemma perform_keeps_entry_nonce c s name found :
  topics_ s !! name = Some found ->
  exists found',
    topics_ (perform c s).2 !! name = Some found' /\
    TopicInfo.nonce found' = TopicInfo.nonce found /\
    TopicInfo.id found' = TopicInfo.id found.
Proof.
  intros Hfound. rewrite (perform_entry c s name found Hfound).
  eexists. split; [reflexivity|].
  destruct c as [f topic|f message|topic]; try done.
  now destruct (decide (SerializedBagMessage.topic_name message = name)).
Qed.

(** The running digest of a tracked topic folds every [write] call made
    for it, whether or not the collaborators failed during the call. *)
Lemma entry_after_calls name cs s found :
  topics_ s !! name = Some found ->
  topics_ (perform_all cs s) !! name =
    Some (TopicInfo.mk (TopicInfo.id found)
            (fold_left computeMessageDigest (written_to name cs) (TopicInfo.digest found))
            (TopicInfo.nonce found)).
Proof.
  revert s found. induction cs as [|c cs IH]; intros s found Hfound; simpl.
  - now destruct found.
  - pose proof (perform_entry c s name found Hfound) as Hstep.
    rewrite (IH _ _ Hstep). unfold written_to at 2. simpl.
    destruct c as [f topic|f message|topic]; simpl; try reflexivity.
    destruct (decide (SerializedBagMessage.topic_name message = name)); reflexivity.
Qed.

(** One fault-free call hands the same digests, in the same order, to the
    record store and to the node. *)
Lemma perform_emits_what_it_persists c s :
  fault_of c = NoFault ->
  exists events calls,
    history (perform c s).2 = history s ++ events /\
    node_ (perform c s).2 = node_ s ++ calls /\
    persisted_digests events = map call_digest calls.
Proof.
  intros Hf. destruct c as [f topic|f message|topic]; simpl in *; subst.
  - destruct (topics_ s !! TopicMetadata.name topic) as [other|] eqn:E.
    + rewrite (create_topic_tracked _ _ _ _ E). simpl.
      exists [], []. now rewrite !app_nil_r.
    + destruct (create_topic_untracked NoFault topic s E)
        as (_ & _ & _ & _ & -> & -> & _).
      eexists _, _. repeat split; reflexivity.
  - destruct (topics_ s !! SerializedBagMessage.topic_name message)
      as [found|] eqn:E.
    + destruct (write_tracked NoFault message s found E)
        as (_ & _ & _ & _ & -> & -> & _).
      eexists _, _. repeat split; reflexivity.
    + rewrite (write_untracked _ _ _ E). simpl.
      destruct (after_prepare_for_writing_frame s) as (_ & _ & _ & -> & -> & _).
      exists [], []. now rewrite !app_nil_r.
  - exists [], []. now rewrite !app_nil_r.
Qed.

Lemma perform_all_emits_what_it_persists cs s :
  fault_free cs ->
  exists events calls,
    history (perform_all cs s) = history s ++ events /\
    node_ (perform_all cs s) = node_ s ++ calls /\
    persisted_digests events = map call_digest calls.
Proof.
  revert s. induction cs as [|c cs IH]; intros s Hff; simpl.
  - exists [], []. now rewrite !app_nil_r.
  - apply Forall_cons in Hff as [Hc Hcs].
    destruct (perform_emits_what_it_persists c s Hc) as (e1 & c1 & He1 & Hc1 & Hd1).
    destruct (IH (perform c s).2 Hcs) as (e2 & c2 & He2 & Hc2 & Hd2).
    exists (e1 ++ e2), (c1 ++ c2).
    rewrite He2, He1, Hc2, Hc1, <- !app_assoc.
    repeat split. unfold persisted_digests in *.
    rewrite omap_app, fmap_app. unfold fmap, list_fmap. now rewrite Hd1, Hd2.
Qed.

End Frames.

(** ** The per-topic message chain and the order of emissions *)

Section Chains.

Context {helper_ : BbrHelper}.

(** C3.  For a tracked topic and a session without collaborator
    failures, the digest held in [topics_] after the session is the left
    fold of [computeMessageDigest] over the digest held before it and the
    messages written to the topic, in call order (calls for other topics
    and repeated declarations may be interleaved).  For each such
    [write], the digest stored in the entry is the digest of the inserted
    messages row and the digest of the checkpoint handed to the node. *)
Theorem topic_digest_is_left_fold :
  (forall name cs s found,
     topics_ s !! name = Some found ->
     fault_free cs ->
     TopicInfo.digest <$> topics_ (perform_all cs s) !! name =
       Some (fold_left computeMessageDigest (written_to name cs)
               (TopicInfo.digest found))) /\
  (forall message s found,
     topics_ s !! SerializedBagMessage.topic_name message = Some found ->
     let r := write NoFault message s in
     let new_digest := computeMessageDigest (TopicInfo.digest found) message in
     r.1 = Returned tt /\
     TopicInfo.digest <$> topics_ r.2 !! SerializedBagMessage.topic_name message
       = Some new_digest /\
     (exists row,
        messages (database_ r.2) = messages (database_ s) ++ [row] /\
        messages_row.bbr_digest row = new_digest /\
        messages_row.data row = SerializedBagMessage.serialized_data message /\
        messages_row.timestamp row = SerializedBagMessage.time_stamp message /\
        messages_row.topic_id row = TopicInfo.id found) /\
     node_ r.2 =
       node_ s ++ [publish_checkpoint new_digest (TopicInfo.nonce found) message]).
Proof.
  split.
  - intros name cs s found Hfound _.
    now rewrite (entry_after_calls name cs s found Hfound).
  - intros message s found Hfound. simpl.
    destruct (write_tracked NoFault message s found Hfound)
      as (-> & -> & _ & -> & -> & _).
    rewrite lookup_insert_eq. repeat split.
    eexists. repeat split.
Qed.

Lemma perform_logs_in_program_order c s :
  fault_of c = NoFault ->
  in_program_order (history s) ->
  node_ s = emissions (history s) ->
  in_program_order (history (perform c s).2) /\
  node_ (perform c s).2 = emissions (history (perform c s).2).
Proof.
  intros Hf Horder Hnode.
  destruct c as [f topic|f message|topic]; simpl in *; subst; [| |done].
  - destruct (topics_ s !! TopicMetadata.name topic) as [other|] eqn:E.
    { now rewrite (create_topic_tracked _ _ _ _ E). }
    destruct (create_topic_untracked NoFault topic s E)
      as (_ & _ & _ & _ & -> & -> & _).
    split.
    + pose proof (declaration_logged (history s)
                    (computeTopicNonce (computeTopicDigest (nonce_ s) topic) topic)
                    (declared_row s topic) (declared_entry s topic)
                    Horder eq_refl) as Hlog.
      replace (row_metadata (declared_row s topic)) with topic in Hlog
        by now destruct topic.
      exact Hlog.
    + unfold emissions in *. rewrite omap_app, <- Hnode. reflexivity.
  - destruct (topics_ s !! SerializedBagMessage.topic_name message)
      as [found|] eqn:E.
    + destruct (write_tracked NoFault message s found E)
        as (_ & _ & _ & _ & -> & -> & _).
      split.
      * exact (append_logged (history s) (appended_row (database_ s) found message)
                 (TopicInfo.nonce found) message Horder eq_refl eq_refl).
      * unfold emissions in *. rewrite omap_app, <- Hnode. reflexivity.
    + rewrite (write_untracked _ _ _ E). simpl.
      now destruct (after_prepare_for_writing_frame s)
        as (_ & _ & _ & -> & -> & _).
Qed.

Lemma perform_all_logs_in_program_order cs s :
  fault_free cs ->
  in_program_order (history s) ->
  node_ s = emissions (history s) ->
  in_program_order (history (perform_all cs s)) /\
  node_ (perform_all cs s) = emissions (history (perform_all cs s)).
Proof.
  revert s. induction cs as [|c cs IH]; intros s Hff Horder Hnode; simpl;
    [done|].
  apply Forall_cons in Hff as [Hc Hcs].
  destruct (perform_logs_in_program_order c s Hc Horder Hnode).
  now apply IH.
Qed.

(** C7 (as amended).  A [write] for a tracked topic and a
    [create_topic] for an untracked name that meet no collaborator
    failure each return after handing exactly one call to the node.  For
    a [write] the log shows the assignment of the digest, the insert and
    the call, in that order.  For a [create_topic] it shows the
    assignment of [nonce_], the insert and the call, and the entry of the
    topic stored in [topics_] only after the call.  Over a session
    without failures begun on a newly opened bag the whole log is a
    sequence of such declarations and appends, each call on the node
    carrying the digest and the metadata or message of the insert just
    before it; the calls received by the node are those of the log, in
    order, and their digests are the persisted digests, in order. *)
Theorem one_checkpoint_per_write_in_order :
  (forall message s found,
     topics_ s !! SerializedBagMessage.topic_name message = Some found ->
     let r := write NoFault message s in
     r.1 = Returned tt /\
     node_ r.2 = node_ s ++ [appended_checkpoint found message] /\
     history r.2 =
       history s ++
       [EvDigest (SerializedBagMessage.topic_name message)
          (computeMessageDigest (TopicInfo.digest found) message);
        EvInsertMessage (appended_row (database_ s) found message);
        EvNode (appended_checkpoint found message)]) /\
  (forall topic s,
     topics_ s !! TopicMetadata.name topic = None ->
     let r := create_topic NoFault topic s in
     let digest0 := computeTopicDigest (nonce_ s) topic in
     r.1 = Returned tt /\
     node_ r.2 = node_ s ++ [create_record digest0 topic] /\
     history r.2 =
       history s ++
       [EvNonce (computeTopicNonce digest0 topic);
        EvInsertTopic (declared_row s topic);
        EvNode (create_record digest0 topic);
        EvEmplace (TopicMetadata.name topic) (declared_entry s topic)]) /\
  (forall created_nonce database_name cs,
     fault_free cs ->
     let s := perform_all cs (open_read_write created_nonce database_name) in
     in_program_order (history s) /\
     node_ s = emissions (history s) /\
     map call_digest (node_ s) = persisted_digests (history s)).
Proof.
  split; [|split].
  - intros message s found Hfound. simpl.
    destruct (write_tracked NoFault message s found Hfound)
      as (-> & _ & _ & _ & -> & -> & _).
    repeat split.
  - intros topic s Hnone. simpl.
    destruct (create_topic_untracked NoFault topic s Hnone)
      as (-> & _ & _ & _ & -> & -> & _).
    repeat split.
  - intros created_nonce database_name cs Hff. simpl.
    destruct (perform_all_logs_in_program_order cs
                (open_read_write created_nonce database_name) Hff
                nothing_logged eq_refl) as [Horder Hnode].
    split; [exact Horder|]. split; [exact Hnode|].
    destruct (perform_all_emits_what_it_persists cs
                (open_read_write created_nonce database_name) Hff)
      as (events & calls & -> & -> & Hsame).
    simpl. now rewrite Hsame.
Qed.

(** C4 (as amended).  There is no rollback.  When the insert
    statement throws during [write] for a tracked topic, the exception
    reaches the caller with no row inserted and no checkpoint handed to
    the node, and the digest in [topics_] stays advanced.  When the
    node's call throws during [write], the digest is advanced and the
    row is inserted.  When the insert statement throws during
    [create_topic] for an untracked name, [nonce_] stays advanced while
    no row is inserted, no entry is stored and the node receives nothing.
    When the node's call throws during [create_topic], [nonce_] is
    advanced and the row is inserted, but no entry is stored. *)
Theorem failure_leaves_memory_advanced :
  (forall what message s found,
     topics_ s !! SerializedBagMessage.topic_name message = Some found ->
     let r := write (PersistenceFailure what) message s in
     r.1 = Thrown (SqliteException what) /\
     TopicInfo.digest <$> topics_ r.2 !! SerializedBagMessage.topic_name message
       = Some (computeMessageDigest (TopicInfo.digest found) message) /\
     database_ r.2 = database_ s /\
     node_ r.2 = node_ s /\
     nonce_ r.2 = nonce_ s) /\
  (forall what message s found,
     topics_ s !! SerializedBagMessage.topic_name message = Some found ->
     let r := write (PublicationFailure what) message s in
     r.1 = Thrown (publisher_error what) /\
     TopicInfo.digest <$> topics_ r.2 !! SerializedBagMessage.topic_name message
       = Some (computeMessageDigest (TopicInfo.digest found) message) /\
     database_ r.2 =
       insert_into_messages (appended_row (database_ s) found message)
         (database_ s) /\
     node_ r.2 = node_ s /\
     nonce_ r.2 = nonce_ s) /\
  (forall what topic s,
     topics_ s !! TopicMetadata.name topic = None ->
     let r := create_topic (PersistenceFailure what) topic s in
     r.1 = Thrown (SqliteException what) /\
     nonce_ r.2 = computeTopicNonce (computeTopicDigest (nonce_ s) topic) topic /\
     topics_ r.2 = topics_ s /\
     database_ r.2 = database_ s /\
     node_ r.2 = node_ s) /\
  (forall what topic s,
     topics_ s !! TopicMetadata.name topic = None ->
     let r := create_topic (PublicationFailure what) topic s in
     r.1 = Thrown (publisher_error what) /\
     nonce_ r.2 = computeTopicNonce (computeTopicDigest (nonce_ s) topic) topic /\
     topics_ r.2 = topics_ s /\
     database_ r.2 = insert_into_topics (declared_row s topic) (database_ s) /\
     node_ r.2 = node_ s).
Proof.
  repeat split.
  all: try match goal with
    | H : topics_ ?s !! SerializedBagMessage.topic_name ?m = Some ?found
      |- context [write ?f ?m ?s] =>
      destruct (write_tracked f m s found H) as (E1 & E2 & E3 & E4 & E5 & _)
    | H : topics_ ?s !! TopicMetadata.name ?t = None
      |- context [create_topic ?f ?t ?s] =>
      destruct (create_topic_untracked f t s H) as (E1 & E2 & E3 & E4 & E5 & _)
    end; rewrite ?E1, ?E2, ?E3, ?E4, ?E5; try reflexivity.
  all: now rewrite lookup_insert_eq.
Qed.

End Chains.

Lemma topic_digest_is_left_fold_witness :
  topics_ session_A !! "A" = Some (TopicInfo.mk 1 digest0_A digest0_A) /\
  fault_free [call_write NoFault message_P1; call_write NoFault message_P2] /\
  TopicInfo.digest <$>
    topics_ (perform_all (helper_ := transcript_helper)
               [call_write NoFault message_P1; call_write NoFault message_P2]
               session_A) !! "A" =
    Some (computeMessageDigest (BbrHelper := transcript_helper)
            digest1_A message_P2) /\
  node_ session_A_P1 =
    node_ session_A ++ [publish_checkpoint digest1_A digest0_A message_P1].
Proof.
  destruct (topic_digest_is_left_fold (helper_ := transcript_helper))
    as [Hfold Hstep].
  assert (Hfound : topics_ session_A !! "A"
                   = Some (TopicInfo.mk 1 digest0_A digest0_A))
    by (vm_compute; reflexivity).
  assert (Hff : fault_free [call_write NoFault message_P1;
                            call_write NoFault message_P2])
    by (repeat constructor).
  split; [exact Hfound|]. split; [exact Hff|]. split.
  - exact (Hfold "A" _ session_A _ Hfound Hff).
  - exact (proj2 (proj2 (proj2 (Hstep message_P1 session_A _ Hfound)))).
Defined.

Lemma one_checkpoint_per_write_in_order_witness :
  topics_ session_A !! SerializedBagMessage.topic_name message_P1
    = Some (TopicInfo.mk 1 digest0_A digest0_A) /\
  topics_ session_opened !! TopicMetadata.name topic_A = None /\
  fault_free scenario /\
  node_ session_A_P1 =
    node_ session_A ++ [publish_checkpoint digest1_A digest0_A message_P1] /\
  node_ session_A = node_ session_opened ++ [create_record digest0_A topic_A] /\
  (let s := perform_all (helper_ := transcript_helper) scenario session_opened in
   in_program_order (history s) /\
   node_ s = emissions (history s) /\
   map call_digest (node_ s) = persisted_digests (history s)).
Proof.
  destruct (one_checkpoint_per_write_in_order (helper_ := transcript_helper))
    as (Hwrite & Hcreate & Hsession).
  assert (Hfound : topics_ session_A !! SerializedBagMessage.topic_name message_P1
                   = Some (TopicInfo.mk 1 digest0_A digest0_A))
    by (vm_compute; reflexivity).
  assert (Hnone : topics_ session_opened !! TopicMetadata.name topic_A = None)
    by (vm_compute; reflexivity).
  assert (Hff : fault_free scenario) by (repeat constructor).
  split; [exact Hfound|]. split; [exact Hnone|]. split; [exact Hff|]. split.
  - exact (proj1 (proj2 (Hwrite message_P1 session_A _ Hfound))).
  - split.
    + exact (proj1 (proj2 (Hcreate topic_A session_opened Hnone))).
    + exact (Hsession nonce0 "bag.db3" scenario Hff).
Defined.

(** C7 (as stated) fails for a declaration.  The log of the
    declaration of topic A shows the call on the node before the entry of
    the topic is stored in [topics_]: at the moment of the emission the
    row is in the topics table and [nonce_] has advanced, but no digest
    or nonce of topic A is in memory yet; the entry is there when the
    call returns. *)
Lemma declaration_emits_before_storing_entry :
  history session_A =
    [EvNonce (nonce_ session_A);
     EvInsertTopic (topics_row.mk 1 "A" "T" "F" nonce0 digest0_A);
     EvNode (create_record digest0_A topic_A);
     EvEmplace "A" (TopicInfo.mk 1 digest0_A digest0_A)] /\
  topics_ session_A_at_emission !! "A" = None /\
  topics (database_ session_A_at_emission)
    = [topics_row.mk 1 "A" "T" "F" nonce0 digest0_A] /\
  nonce_ session_A_at_emission = nonce_ session_A /\
  topics_ session_A !! "A" = Some (TopicInfo.mk 1 digest0_A digest0_A).
Proof.
  repeat split; vm_compute; reflexivity.
Qed.

(** C4 (as stated) fails.  Topic A is tracked and its in-memory digest
    equals the digest the store holds for it.  The insert statement of
    the next [write] throws: the caller gets the exception, the messages
    table is still empty and the store still holds [digest0_A], but the
    in-memory digest has become [digest1_A].  Likewise, on a newly
    opened bag, a [create_topic] whose insert statement throws leaves
    [nonce_] advanced past the created nonce while the topics table is
    empty and no entry is stored. *)
Lemma failed_insert_leaves_memory_ahead_of_store :
  TopicInfo.digest <$> topics_ session_A !! "A" = Some digest0_A /\
  durable_digest (database_ session_A) 1 = Some digest0_A /\
  (write (helper_ := transcript_helper) (PersistenceFailure "disk I/O error")
     message_P1 session_A).1 = Thrown (SqliteException "disk I/O error") /\
  TopicInfo.digest <$> topics_ session_A_P1_failed !! "A" = Some digest1_A /\
  durable_digest (database_ session_A_P1_failed) 1 = Some digest0_A /\
  messages (database_ session_A_P1_failed) = [] /\
  digest1_A <> digest0_A /\
  nonce_ session_opened = nonce0 /\
  (create_topic (helper_ := transcript_helper)
     (PersistenceFailure "disk I/O error") topic_A session_opened).1
    = Thrown (SqliteException "disk I/O error") /\
  nonce_ session_A_failed <> nonce0 /\
  topics (database_ session_A_failed) = [] /\
  topics_ session_A_failed !! "A" = None.
Proof.
  repeat split; try (vm_compute; reflexivity); vm_compute; discriminate.
Qed.

Lemma failure_leaves_memory_advanced_witness :
  topics_ session_A !! SerializedBagMessage.topic_name message_P1
    = Some (TopicInfo.mk 1 digest0_A digest0_A) /\
  topics_ session_opened !! TopicMetadata.name topic_A = None /\
  TopicInfo.digest <$> topics_ session_A_P1_failed !! "A" = Some digest1_A /\
  database_ session_A_P1_failed = database_ session_A /\
  database_ (write (helper_ := transcript_helper) (PublicationFailure "no route")
               message_P1 session_A).2 =
    insert_into_messages
      (appended_row (helper_ := transcript_helper) (database_ session_A)
         (TopicInfo.mk 1 digest0_A digest0_A) message_P1)
      (database_ session_A) /\
  nonce_ session_A_failed =
    computeTopicNonce (BbrHelper := transcript_helper) digest0_A topic_A /\
  topics_ (create_topic (helper_ := transcript_helper) (PublicationFailure "no route")
             topic_A session_opened).2 = topics_ session_opened.
Proof.
  destruct (failure_leaves_memory_advanced (helper_ := transcript_helper))
    as (Hw1 & Hw2 & Hc1 & Hc2).
  assert (Hfound : topics_ session_A !! SerializedBagMessage.topic_name message_P1
                   = Some (TopicInfo.mk 1 digest0_A digest0_A))
    by (vm_compute; reflexivity).
  assert (Hnone : topics_ session_opened !! TopicMetadata.name topic_A = None)
    by (vm_compute; reflexivity).
  split; [exact Hfound|]. split; [exact Hnone|].
  split; [exact (proj1 (proj2 (Hw1 "disk I/O error" message_P1 session_A _ Hfound)))|].
  split; [exact (proj1 (proj2 (proj2 (Hw1 "disk I/O error" message_P1 session_A _ Hfound))))|].
  split; [exact (proj1 (proj2 (proj2 (Hw2 "no route" message_P1 session_A _ Hfound))))|].
  split; [exact (proj1 (proj2 (Hc1 "disk I/O error" topic_A session_opened Hnone)))|].
  exact (proj1 (proj2 (proj2 (Hc2 "no route" topic_A session_opened Hnone)))).
Defined.

(** ** The chain over topic declarations *)

Section GlobalChain.

Context {helper_ : BbrHelper}.

Lemma row_metadata_declared_row s topic :
  row_metadata (declared_row s topic) = topic.
Proof. now destruct topic. Qed.

Lemma declared_snoc cs c :
  declared (cs ++ [c]) =
  declared cs ++ match c with call_create_topic _ topic => [topic] | _ => [] end.
Proof. unfold declared. rewrite omap_app. now destruct c. Qed.

Lemma chain_invariant_write created_nonce ts f message s :
  chain_invariant created_nonce ts s ->
  chain_invariant created_nonce ts (write f message s).2.
Proof.
  unfold chain_invariant. simpl.
  rewrite write_keeps_topics_table, write_keeps_nonce_.
  intros (? & ? & ? & ? & ? & Hdom). repeat split; try assumption.
  - intros Hs. apply Hdom. now apply write_keeps_tracked in Hs.
  - intros Hin. apply write_keeps_tracked. now apply Hdom.
Qed.

Lemma chain_invariant_create_topic created_nonce ts topic s :
  TopicMetadata.name topic ∉ map TopicMetadata.name ts ->
  chain_invariant created_nonce ts s ->
  chain_invariant created_nonce (ts ++ [topic]) (create_topic NoFault topic s).2.
Proof.
  intros Hfresh (Hmeta & Hdig & Hhead & Hadj & Hnonce & Hdom).
  assert (Hnone : topics_ s !! TopicMetadata.name topic = None).
  { apply eq_None_not_Some. intros Hs. now apply Hfresh, Hdom. }
  destruct (create_topic_untracked NoFault topic s Hnone)
    as (_ & Htopics & Hn & Hdb & _).
  unfold chain_invariant. simpl. rewrite Htopics, Hn, Hdb. simpl.
  set (rows := topics (database_ s)) in *.
  set (row := declared_row s topic).
  assert (Hrow_nonce : topics_row.bbr_nonce row = nonce_ s) by reflexivity.
  assert (Hrow_digest : topics_row.bbr_digest row = computeTopicDigest (nonce_ s) topic)
    by reflexivity.
  assert (Hrow_meta : row_metadata row = topic) by apply row_metadata_declared_row.
  repeat split.
  - rewrite map_app, Hmeta. simpl. now rewrite Hrow_meta.
  - intros r [Hr|Hr%list_elem_of_singleton]%elem_of_app; [now apply Hdig|].
    subst r. now rewrite Hrow_meta, Hrow_digest, Hrow_nonce.
  - intros r. destruct rows as [|r0 rows'] eqn:Erows; simpl.
    + intros [= <-]. now rewrite Hrow_nonce, Hnonce.
    + intros [= <-]. now apply Hhead.
  - intros i r1 r2 H1 H2.
    destruct (decide (S i < length rows)) as [Hlt|Hge].
    + rewrite lookup_app_l in H1 by lia. rewrite lookup_app_l in H2 by lia.
      eauto.
    + assert (S i = length rows) as Hi.
      { apply lookup_lt_Some in H2. rewrite length_app in H2. simpl in H2. lia. }
      rewrite lookup_app_l in H1 by lia.
      rewrite lookup_app_r in H2 by lia.
      replace (S i - length rows) with 0 in H2 by lia. simpl in H2.
      injection H2 as <-. rewrite Hrow_nonce, Hnonce.
      rewrite last_lookup. replace (pred (length rows)) with i by lia.
      now rewrite H1.
  - rewrite last_snoc. cbn [from_option]. rewrite Hrow_meta. reflexivity.
  - rewrite map_app. simpl. intros Hs. apply elem_of_app.
    destruct (decide (TopicMetadata.name topic = name)) as [<-|Hne].
    + right. now left.
    + left. apply Hdom. now rewrite lookup_insert_ne in Hs.
  - rewrite map_app. simpl.
    intros [Hin|Hin%list_elem_of_singleton]%elem_of_app.
    + destruct (decide (TopicMetadata.name topic = name)) as [<-|Hne].
      * rewrite lookup_insert_eq. eauto.
      * rewrite lookup_insert_ne by done. now apply Hdom.
    + subst name. rewrite lookup_insert_eq. eauto.
Qed.

Lemma chain_invariant_session created_nonce database_name cs :
  NoDup (map TopicMetadata.name (declared cs)) ->
  Forall (fun c => declares c -> fault_of c = NoFault) cs ->
  chain_invariant created_nonce (declared cs)
    (perform_all cs (open_read_write created_nonce database_name)).
Proof.
  induction cs as [|c cs IH] using rev_ind; intros Hnodup Hfaults.
  - unfold chain_invariant. simpl. repeat split; try done.
    + intros row Hin. inversion Hin.
    + rewrite lookup_empty. intros [? [=]].
    + intros Hin. inversion Hin.
  - rewrite perform_all_app. simpl. rewrite declared_snoc in *.
    apply Forall_app in Hfaults as [Hcs Hc]. apply Forall_inv in Hc.
    rewrite map_app in Hnodup. apply NoDup_app in Hnodup as (Hnd & Hfresh & _).
    specialize (IH Hnd Hcs).
    destruct c as [f topic|f message|topic]; simpl in *.
    + rewrite (Hc I).
      apply chain_invariant_create_topic; [|assumption].
      intros Hin. apply (Hfresh _ Hin). now left.
    + rewrite app_nil_r. now apply chain_invariant_write.
    + now rewrite app_nil_r.
Qed.


(** C2.  In a session begun on a newly opened bag, whose
    [create_topic] calls have distinct names and meet no collaborator
    failure (with [write] and [remove_topic] calls interleaved at will),
    the topics table lists the declared topics in call order; each row
    holds the digest [computeTopicDigest] of the nonce stored beside it;
    the first row holds the nonce drawn at construction and each later
    row holds [computeTopicNonce] of the digest and metadata of the row
    before it; [nonce_] is [computeTopicNonce] of the last row.  A
    declaration stores in [topics_] the same initial digest it persists,
    computed from the value of [nonce_] it found, and [write] never
    changes [nonce_]. *)
Theorem global_declaration_chain :
  (forall created_nonce database_name cs,
     NoDup (map TopicMetadata.name (declared cs)) ->
     Forall (fun c => declares c -> fault_of c = NoFault) cs ->
     let s := perform_all cs (open_read_write created_nonce database_name) in
     let rows := topics (database_ s) in
     map row_metadata rows = declared cs /\
     (forall row, row ∈ rows ->
        topics_row.bbr_digest row =
          computeTopicDigest (topics_row.bbr_nonce row) (row_metadata row)) /\
     (forall row, head rows = Some row ->
        topics_row.bbr_nonce row = created_nonce) /\
     (forall i r1 r2, rows !! i = Some r1 -> rows !! S i = Some r2 ->
        topics_row.bbr_nonce r2 =
          computeTopicNonce (topics_row.bbr_digest r1) (row_metadata r1)) /\
     nonce_ s =
       from_option
         (fun row => computeTopicNonce (topics_row.bbr_digest row) (row_metadata row))
         created_nonce (last rows)) /\
  (forall topic s,
     topics_ s !! TopicMetadata.name topic = None ->
     let r := create_topic NoFault topic s in
     let digest0 := computeTopicDigest (nonce_ s) topic in
     TopicInfo.digest <$> topics_ r.2 !! TopicMetadata.name topic = Some digest0 /\
     nonce_ r.2 = computeTopicNonce digest0 topic /\
     exists row,
       topics (database_ r.2) = topics (database_ s) ++ [row] /\
       row_metadata row = topic /\
       topics_row.bbr_nonce row = nonce_ s /\
       topics_row.bbr_digest row = digest0) /\
  (forall f message s, nonce_ (write f message s).2 = nonce_ s).
Proof.
  split; [|split].
  - intros created_nonce database_name cs Hnodup Hfaults.
    destruct (chain_invariant_session created_nonce database_name cs
                Hnodup Hfaults) as (? & ? & ? & ? & ? & _).
    simpl. repeat split; assumption.
  - intros topic s Hnone. simpl.
    destruct (create_topic_untracked NoFault topic s Hnone)
      as (_ & -> & -> & -> & _).
    rewrite lookup_insert_eq. repeat split.
    exists (declared_row s topic). repeat split.
    apply row_metadata_declared_row.
  - apply write_keeps_nonce_.
Qed.

End GlobalChain.

Lemma global_declaration_chain_witness :
  NoDup (map TopicMetadata.name (declared scenario)) /\
  Forall (fun c => declares c -> fault_of c = NoFault) scenario /\
  topics_ session_opened !! TopicMetadata.name topic_A = None /\
  (let s := perform_all (helper_ := transcript_helper) scenario session_opened in
   map row_metadata (topics (database_ s)) = declared scenario /\
   (forall i r1 r2,
      topics (database_ s) !! i = Some r1 ->
      topics (database_ s) !! S i = Some r2 ->
      topics_row.bbr_nonce r2 =
        computeTopicNonce (BbrHelper := transcript_helper)
          (topics_row.bbr_digest r1) (row_metadata r1))) /\
  nonce_ session_A =
    computeTopicNonce (BbrHelper := transcript_helper) digest0_A topic_A.
Proof.
  destruct (global_declaration_chain (helper_ := transcript_helper))
    as (Hchain & Hstep & _).
  assert (Hnodup : NoDup (map TopicMetadata.name (declared scenario))).
  { apply (bool_decide_unpack _). vm_compute. exact I. }
  assert (Hfaults : Forall (fun c => declares c -> fault_of c = NoFault) scenario).
  { repeat constructor. }
  assert (Hnone : topics_ session_opened !! TopicMetadata.name topic_A = None)
    by (vm_compute; reflexivity).
  split; [exact Hnodup|]. split; [exact Hfaults|]. split; [exact Hnone|].
  destruct (Hchain nonce0 "bag.db3" scenario Hnodup Hfaults)
    as (Hrows & _ & _ & Hadj & _).
  destruct (Hstep topic_A session_opened Hnone) as (_ & Hnonce & _).
  split; [split; [exact Hrows | exact Hadj] | exact Hnonce].
Defined.

(** ** Reading back *)


Section ReadBack.
Context {helper_ : BbrHelper}.

(** *** The cursor *)

Lemma has_next_prepared s :
  read_statement_ s = true ->
  has_next s =
    (Returned (negb (current_message_row_ s =? length (message_result_ s))), s).
Proof. intros H. unfold has_next, bind, get. now rewrite H. Qed.

Lemma read_next_prepared s row :
  read_statement_ s = true ->
  message_result_ s !! current_message_row_ s = Some row ->
  read_next s =
    (Returned (read_row row),
     set_current_message_row_ (S (current_message_row_ s)) s).
Proof.
  intros H Hrow. unfold read_next, bind, get. rewrite H. unfold ret at 1.
  cbv beta iota.
  match goal with
  | |- (match ?x with Some _ => _ | None => _ end) _ = _ =>
    replace x with (Some row) by (symmetry; exact Hrow)
  end.
  now destruct row as [[data timestamp] name].
Qed.

Lemma has_next_unprepared s :
  read_statement_ s = false ->
  let result := select_messages_ordered (database_ s) in
  has_next s = (Returned (negb (0 =? length result)), set_read_cursor result 0 s).
Proof. intros H. unfold has_next, bind, get. now rewrite H. Qed.

Lemma replay_S fuel s :
  replay (S fuel) s =
    match has_next s with
    | (Returned true, s1) =>
      match read_next s1 with
      | (Returned message, s2) =>
        match replay fuel s2 with
        | (Returned rest, s3) => (Returned (message :: rest), s3)
        | (Thrown e, s3) => (Thrown e, s3)
        end
      | (Thrown e, s2) => (Thrown e, s2)
      end
    | (Returned false, s1) => (Returned [], s1)
    | (Thrown e, s1) => (Thrown e, s1)
    end.
Proof.
  simpl. unfold bind, ret.
  destruct (has_next s) as [[[|]|e] s1]; try reflexivity.
Qed.

Lemma replay_prepared fuel s :
  read_statement_ s = true ->
  current_message_row_ s <= length (message_result_ s) ->
  length (message_result_ s) - current_message_row_ s <= fuel ->
  exists s',
    replay fuel s =
      (Returned (map read_row (drop (current_message_row_ s) (message_result_ s))),
       s') /\
    read_statement_ s' = true /\
    message_result_ s' = message_result_ s /\
    current_message_row_ s' = length (message_result_ s) /\
    database_ s' = database_ s.
Proof.
  revert s. induction fuel as [|fuel IH]; intros s Hprep Hle Hfuel.
  - exists s. simpl. unfold ret.
    replace (current_message_row_ s) with (length (message_result_ s)) by lia.
    rewrite drop_all. repeat split; lia || done.
  - rewrite replay_S, (has_next_prepared s Hprep).
    destruct (Nat.eqb_spec (current_message_row_ s) (length (message_result_ s)))
      as [Heq|Hne]; simpl negb; cbv iota.
    + exists s. rewrite Heq, drop_all. repeat split; done.
    + destruct (lookup_lt_is_Some_2 (message_result_ s) (current_message_row_ s))
        as [row Hrow]; [lia|].
      rewrite (read_next_prepared s row Hprep Hrow).
      set (s1 := set_current_message_row_ (S (current_message_row_ s)) s).
      destruct (IH s1) as (s' & Hrun & ? & ? & ? & ?);
        [done | simpl; lia | simpl; lia |].
      exists s'. rewrite Hrun. simpl.
      rewrite (drop_S _ _ _ Hrow). repeat split; done.
Qed.

Lemma replay_unprepared fuel s :
  read_statement_ s = false ->
  length (select_messages_ordered (database_ s)) <= fuel ->
  exists s',
    replay fuel s =
      (Returned (map read_row (select_messages_ordered (database_ s))), s') /\
    (has_next s').1 = Returned false /\
    database_ s' = database_ s.
Proof.
  intros Hprep Hfuel.
  set (result := select_messages_ordered (database_ s)) in *.
  set (s1 := set_read_cursor result 0 s).
  destruct fuel as [|fuel].
  - exists s. assert (result = []) as Hnil by (apply length_zero_iff_nil; lia).
    simpl. unfold ret. rewrite Hnil. repeat split.
    unfold has_next, bind, get. rewrite Hprep. simpl. fold result.
    now rewrite Hnil.
  - assert (Hsame : replay (S fuel) s = replay (S fuel) s1).
    { rewrite !replay_S, (has_next_prepared s1 eq_refl),
        (has_next_unprepared s Hprep). reflexivity. }
    destruct (replay_prepared (S fuel) s1) as (s' & Hrun & Hp & Hr & Hc & Hdb);
      [done | simpl; lia | simpl; lia |].
    exists s'. rewrite Hsame, Hrun. simpl. rewrite drop_0. repeat split.
    + rewrite (has_next_prepared s' Hp), Hc, Hr. simpl.
      now rewrite Nat.eqb_refl.
    + exact Hdb.
Qed.


(** *** Rowids and the join *)

Lemma next_rowid_above ids x : x ∈ ids -> (x < next_rowid ids)%Z.
Proof.
  unfold next_rowid. induction ids as [|y ids IH]; intros Hin.
  - inversion Hin.
  - simpl. apply elem_of_cons in Hin as [->|Hin]; [lia|].
    specialize (IH Hin). lia.
Qed.

Lemma next_rowid_bounds ids n :
  (forall x, x ∈ ids -> (x ≤ n)%Z) -> (0 ≤ n)%Z ->
  (1 ≤ next_rowid ids ≤ n + 1)%Z.
Proof.
  unfold next_rowid. induction ids as [|y ids IH]; intros Hle Hn; simpl.
  - lia.
  - assert (y ≤ n)%Z by (apply Hle; now left).
    assert (1 ≤ Z.succ (foldr Z.max 0 ids) ≤ n + 1)%Z.
    { apply IH; [|done]. intros x Hx. apply Hle. now right. }
    lia.
Qed.

Lemma filter_unique_id (rows : list topics_row.t) row :
  NoDup (map topics_row.id rows) -> row ∈ rows ->
  filter (fun t => topics_row.id t = topics_row.id row) rows = [row].
Proof.
  induction rows as [|r rows IH]; intros Hnodup Hin; [inversion Hin|].
  simpl in Hnodup. apply NoDup_cons in Hnodup as [Hfresh Hnodup].
  apply elem_of_cons in Hin as [->|Hin].
  - rewrite filter_cons_True by done. f_equal.
    apply elem_of_nil_inv. intros t [Heq Ht]%list_elem_of_filter.
    apply Hfresh. rewrite <- Heq. apply list_elem_of_fmap. eauto.
  - rewrite filter_cons_False; [now apply IH|].
    intros Heq. apply Hfresh. rewrite Heq. apply list_elem_of_fmap. eauto.
Qed.

Lemma join_insert_message db row t :
  filter (fun t => topics_row.id t = messages_row.topic_id row) (topics db) = [t] ->
  messages_join_topics (insert_into_messages row db) =
  messages_join_topics db ++ [(row, t)].
Proof.
  intros Hone. unfold messages_join_topics. simpl.
  rewrite bind_app. f_equal. simpl. unfold mbind at 1. simpl.
  rewrite Hone. reflexivity.
Qed.

Lemma join_insert_topic db row :
  (forall m, m ∈ messages db -> messages_row.topic_id m <> topics_row.id row) ->
  messages_join_topics (insert_into_topics row db) = messages_join_topics db.
Proof.
  intros Hfresh. unfold messages_join_topics. simpl.
  apply Forall_bind_ext, Forall_forall. intros m Hm.
  rewrite filter_app. rewrite (filter_cons_False _ row []).
  - now rewrite filter_nil, app_nil_r.
  - intros Heq. now apply (Hfresh m Hm).
Qed.

Lemma static_cast_int_small z :
  (- 2147483648 ≤ z < 2147483648)%Z -> static_cast_int z = z.
Proof. intros Hz. unfold static_cast_int. rewrite Z.mod_small; lia. Qed.

(** *** The store invariant along a session *)

Lemma store_invariant_write ms f message s :
  store_invariant ms s ->
  store_invariant (ms ++ persisted_by (call_write f message) s)
    (write f message s).2.
Proof.
  intros (Hms & Hfst & Hnodup & Hentry & Hrefs & Hids).
  unfold persisted_by. simpl perform.
  destruct (topics_ s !! SerializedBagMessage.topic_name message)
    as [found|] eqn:E.
  - destruct (write_tracked f message s found E) as (_ & Ht & _ & Hdb & _).
    assert (Hentry' : forall name info,
              topics_ (write f message s).2 !! name = Some info ->
              exists row, row ∈ topics (database_ s) /\
                topics_row.id row = TopicInfo.id info /\
                topics_row.name row = name).
    { intros name info. rewrite Ht.
      destruct (decide (SerializedBagMessage.topic_name message = name)) as [<-|Hne].
      - rewrite lookup_insert_eq. intros [= <-]. simpl. now apply Hentry.
      - rewrite lookup_insert_ne by done. apply Hentry. }
    destruct f as [|what|what].
    all: unfold store_invariant; rewrite Hdb.
    2: { case_decide; [|done]. rewrite app_nil_r. split_and!; done. }
    all: destruct (Hentry _ _ E) as (t & Hin & Hid & Hname).
    all: set (row := appended_row (database_ s) found message).
    all: assert (Hone : filter (fun t => topics_row.id t = messages_row.topic_id row)
                          (topics (database_ s)) = [t])
           by (simpl; rewrite <- Hid; now apply filter_unique_id).
    all: rewrite (join_insert_message _ row t Hone).
    all: case_decide as Hlen;
           [simpl in Hlen; rewrite length_app in Hlen; simpl in Hlen; lia|].
    all: rewrite !map_app; simpl.
    all: split_and!; try done.
    all: try (rewrite Hms; f_equal; unfold joined_message; simpl;
              rewrite Hname; now destruct message).
    all: try (now rewrite Hfst).
    all: intros m [Hm|Hm%list_elem_of_singleton]%elem_of_app; [now apply Hrefs|].
    all: subst m; simpl; rewrite <- Hid; apply list_elem_of_fmap; eauto.
  - rewrite (write_untracked _ _ _ E). simpl.
    destruct (after_prepare_for_writing_frame s) as (Ht & _ & Hdb & _).
    unfold store_invariant. rewrite Ht, Hdb.
    case_decide; [|done]. rewrite app_nil_r. split_and!; done.
Qed.

Lemma store_invariant_create_topic ms f topic s :
  (Z.of_nat (length (topics (database_ (create_topic f topic s).2)))
     < 2147483648)%Z ->
  store_invariant ms s ->
  store_invariant ms (create_topic f topic s).2.
Proof.
  intros Hbound (Hms & Hfst & Hnodup & Hentry & Hrefs & Hids).
  destruct (topics_ s !! TopicMetadata.name topic) as [other|] eqn:E.
  { rewrite (create_topic_tracked _ _ _ _ E). split_and!; done. }
  destruct (create_topic_untracked f topic s E) as (_ & Ht & _ & Hdb & _).
  set (row := declared_row s topic) in *.
  assert (Hcases :
            (database_ (create_topic f topic s).2 = database_ s /\
             topics_ (create_topic f topic s).2 = topics_ s) \/
            database_ (create_topic f topic s).2
              = insert_into_topics row (database_ s))
    by (destruct f; auto).
  destruct Hcases as [[Hsame Hsame']|Hdb'].
  { unfold store_invariant. rewrite Hsame, Hsame'. split_and!; done. }
  clear Hdb. rewrite Hdb' in Hbound. simpl in Hbound.
  rewrite length_app in Hbound. simpl in Hbound.
  assert (Habove : forall x, x ∈ map topics_row.id (topics (database_ s)) ->
                     (x < topics_row.id row)%Z)
    by (intros x Hx; now apply next_rowid_above).
  assert (Hrange : (1 ≤ topics_row.id row
                    ≤ Z.of_nat (length (topics (database_ s))) + 1)%Z).
  { apply next_rowid_bounds; [|lia].
    intros x (r & -> & Hr)%list_elem_of_fmap. now apply Hids. }
  assert (Hjoin : messages_join_topics (insert_into_topics row (database_ s))
                  = messages_join_topics (database_ s)).
  { apply join_insert_topic. intros m Hm Heq.
    specialize (Habove _ (Hrefs m Hm)). lia. }
  unfold store_invariant. rewrite Hdb', Hjoin. simpl.
  split_and!; try done.
  - rewrite map_app. simpl. apply NoDup_app. repeat split; [done| |apply NoDup_singleton].
    intros x Hx Hx'%list_elem_of_singleton. specialize (Habove _ Hx).
    rewrite Hx' in Habove. simpl in Habove. lia.
  - intros name info. rewrite Ht.
    assert (Hold : topics_ s !! name = Some info ->
              exists r, r ∈ topics (database_ s) ++ [row] /\
                topics_row.id r = TopicInfo.id info /\ topics_row.name r = name).
    { intros Hs. destruct (Hentry _ _ Hs) as (r & ? & ? & ?).
      exists r. rewrite elem_of_app. eauto. }
    destruct f; [|exact Hold..].
    destruct (decide (TopicMetadata.name topic = name)) as [<-|Hne].
    + rewrite lookup_insert_eq. intros [= <-]. exists row.
      rewrite elem_of_app, list_elem_of_singleton. repeat split; [now right|].
      change (TopicInfo.id (declared_entry s topic))
        with (static_cast_int (topics_row.id row)).
      symmetry. apply static_cast_int_small. lia.
    + now rewrite lookup_insert_ne.
  - intros m Hm. rewrite map_app, elem_of_app. left. now apply Hrefs.
  - intros r [Hr|Hr%list_elem_of_singleton]%elem_of_app;
      rewrite length_app; simpl length; [apply Hids in Hr|subst r]; lia.
Qed.


(** A [write] persists its message exactly when the topic is tracked and
    the insert statement does not throw. *)
Lemma persisted_by_write f message s :
  persisted_by (call_write f message) s =
    match topics_ s !! SerializedBagMessage.topic_name message, f with
    | Some _, NoFault | Some _, PublicationFailure _ => [message]
    | _, _ => []
    end.
Proof.
  unfold persisted_by. simpl perform.
  destruct (topics_ s !! SerializedBagMessage.topic_name message)
    as [found|] eqn:E.
  - destruct (write_tracked f message s found E) as (_ & _ & _ & -> & _).
    destruct f; simpl; rewrite ?length_app; simpl; case_decide; done || lia.
  - rewrite (write_untracked _ _ _ E). simpl.
    destruct (after_prepare_for_writing_frame s) as (_ & _ & -> & _).
    now case_decide.
Qed.

Lemma store_invariant_opened created_nonce database_name :
  store_invariant [] (open_read_write created_nonce database_name).
Proof.
  unfold store_invariant. simpl. split_and!; try done.
  - constructor.
  - intros m Hm. inversion Hm.
  - intros row Hrow. inversion Hrow.
Qed.

Lemma topics_table_grows c s :
  length (topics (database_ s)) <= length (topics (database_ (perform c s).2)).
Proof.
  destruct c as [f topic|f message|topic]; simpl.
  - destruct (topics_ s !! TopicMetadata.name topic) as [other|] eqn:E.
    + now rewrite (create_topic_tracked _ _ _ _ E).
    + destruct (create_topic_untracked f topic s E) as (_ & _ & _ & -> & _).
      destruct f; simpl; rewrite ?length_app; lia.
  - now rewrite write_keeps_topics_table.
  - done.
Qed.

Lemma topics_table_grows_all cs s :
  length (topics (database_ s)) <= length (topics (database_ (perform_all cs s))).
Proof.
  revert s. induction cs as [|c cs IH]; intros s; simpl; [done|].
  etransitivity; [apply (topics_table_grows c)|apply IH].
Qed.

Lemma perform_keeps_read_statement_ c s :
  read_statement_ (perform c s).2 = read_statement_ s.
Proof.
  destruct c as [f topic|f message|topic]; simpl.
  - destruct (topics_ s !! TopicMetadata.name topic) as [other|] eqn:E.
    + now rewrite (create_topic_tracked _ _ _ _ E).
    + now destruct (create_topic_untracked f topic s E)
        as (_ & _ & _ & _ & _ & _ & ->).
  - destruct (topics_ s !! SerializedBagMessage.topic_name message)
      as [found|] eqn:E.
    + now destruct (write_tracked f message s found E)
        as (_ & _ & _ & _ & _ & _ & ->).
    + rewrite (write_untracked _ _ _ E). simpl.
      now destruct (after_prepare_for_writing_frame s)
        as (_ & _ & _ & _ & _ & ->).
  - done.
Qed.

Lemma perform_all_keeps_read_statement_ cs s :
  read_statement_ (perform_all cs s) = read_statement_ s.
Proof.
  revert s. induction cs as [|c cs IH]; intros s; simpl; [done|].
  now rewrite IH, perform_keeps_read_statement_.
Qed.

Lemma store_invariant_session cs s ms :
  store_invariant ms s ->
  (Z.of_nat (length (topics (database_ (perform_all cs s)))) < 2147483648)%Z ->
  store_invariant (ms ++ persisted cs s) (perform_all cs s).
Proof.
  revert s ms. induction cs as [|c cs IH]; intros s ms Hinv Hbound; simpl.
  - now rewrite app_nil_r.
  - simpl in Hbound. rewrite app_assoc. apply IH; [|done].
    pose proof (topics_table_grows_all cs (perform c s).2) as Hgrow.
    destruct c as [f topic|f message|topic].
    + simpl persisted_by. rewrite app_nil_r.
      change (perform (call_create_topic f topic) s)
        with (create_topic f topic s) in *.
      apply store_invariant_create_topic; [lia|done].
    + now apply store_invariant_write.
    + simpl. now rewrite app_nil_r.
Qed.

(** *** Sorting by timestamp *)

#[local] Instance by_timestamp_transitive : Transitive by_timestamp.
Proof. intros p q r. unfold by_timestamp. lia. Qed.

#[local] Instance by_timestamp_total : Total by_timestamp.
Proof. intros p q. unfold by_timestamp. lia. Qed.

Lemma StronglySorted_filter {A} (R : relation A) (P : A -> Prop)
    `{forall x, Decision (P x)} (l : list A) :
  StronglySorted R l -> StronglySorted R (filter P l).
Proof.
  induction 1 as [|x l Hl IH Hx]; [constructor|].
  rewrite filter_cons. case_decide; [|done].
  constructor; [done|]. apply Forall_forall.
  intros y [_ Hy]%list_elem_of_filter.
  rewrite Forall_forall in Hx. now apply Hx.
Qed.

Lemma StronglySorted_weaken {A} (R1 R2 : relation A) (l : list A) :
  (forall x y, R1 x y -> R2 x y) ->
  StronglySorted R1 l -> StronglySorted R2 l.
Proof.
  intros Himpl. induction 1 as [|x l Hl IH Hx]; constructor; [done|].
  eapply Forall_impl; [exact Hx|]. auto.
Qed.

Lemma increasing_stamps_identify l x y :
  StronglySorted stamp_lt l -> x ∈ l -> y ∈ l ->
  SerializedBagMessage.time_stamp x = SerializedBagMessage.time_stamp y ->
  x = y.
Proof.
  induction 1 as [|z l Hl IH Hz]; intros Hx Hy Heq; [inversion Hx|].
  rewrite Forall_forall in Hz. unfold stamp_lt in Hz.
  apply elem_of_cons in Hx as [->|Hx]; apply elem_of_cons in Hy as [->|Hy].
  - done.
  - specialize (Hz _ Hy). lia.
  - specialize (Hz _ Hx). lia.
  - now apply IH.
Qed.

(** Two arrangements of the same messages, one by non-decreasing and one
    by increasing timestamps, are the same list. *)
Lemma sorted_arrangement_unique l1 l2 :
  l1 ≡ₚ l2 -> StronglySorted stamp_le l1 -> StronglySorted stamp_lt l2 ->
  l1 = l2.
Proof.
  intros Hperm H1 H2.
  apply (StronglySorted_unique_strong stamp_le); try done.
  - intros x1 x2 Hx1 Hx2 Hle Hge. unfold stamp_le in *.
    apply (increasing_stamps_identify l2); try done; [|lia].
    now rewrite <- Hperm.
  - apply (StronglySorted_weaken stamp_lt); [|done].
    unfold stamp_lt, stamp_le. intros; lia.
Qed.

Lemma read_row_select db :
  map read_row (select_messages_ordered db) =
  map joined_message (merge_sort by_timestamp (messages_join_topics db)).
Proof.
  unfold select_messages_ordered. rewrite map_map. reflexivity.
Qed.


(** C8 (as amended).  After a session begun on a newly opened bag
    (with fewer than 2^31 topic rows, so that topic ids survive the cast
    to [int]), the replay loop over [has_next] and [read_next] returns,
    leaves the cursor at its end, and yields exactly the persisted
    messages, arranged by non-decreasing timestamp.  For every topic
    whose persisted messages carry strictly increasing timestamps in the
    order they were written, the messages of that topic are yielded in
    the order they were written. *)
Theorem replay_orders_by_timestamp created_nonce database_name cs fuel :
  let opened := open_read_write created_nonce database_name in
  let s := perform_all cs opened in
  (Z.of_nat (length (topics (database_ s))) < 2147483648)%Z ->
  length (messages (database_ s)) <= fuel ->
  exists out s',
    replay fuel s = (Returned out, s') /\
    (has_next s').1 = Returned false /\
    out ≡ₚ persisted cs opened /\
    StronglySorted stamp_le out /\
    forall name,
      StronglySorted stamp_lt (filter (on_topic name) (persisted cs opened)) ->
      filter (on_topic name) out = filter (on_topic name) (persisted cs opened).
Proof.
  intros opened s Hbound Hfuel.
  pose proof (store_invariant_session cs opened []
                (store_invariant_opened created_nonce database_name) Hbound)
    as (Hms & Hfst & _).
  fold s in Hms, Hfst. simpl in Hms.
  set (joined := messages_join_topics (database_ s)) in *.
  assert (Hsorted_perm : merge_sort by_timestamp joined ≡ₚ joined)
    by apply merge_sort_Permutation.
  assert (Hprep : read_statement_ s = false)
    by (unfold s; now rewrite perform_all_keeps_read_statement_).
  destruct (replay_unprepared fuel s Hprep) as (s' & Hrun & Hend & _).
  { unfold select_messages_ordered. fold joined.
    rewrite length_map, Hsorted_perm, <- (length_map fst joined), Hfst.
    exact Hfuel. }
  rewrite read_row_select in Hrun. fold joined in Hrun.
  set (out := map joined_message (merge_sort by_timestamp joined)) in *.
  assert (Hperm : out ≡ₚ persisted cs opened).
  { rewrite <- Hms. unfold out. now apply Permutation_map. }
  assert (Hsorted : StronglySorted stamp_le out).
  { unfold out. apply (StronglySorted_fmap joined_message by_timestamp stamp_le).
    - intros p q Hpq. exact Hpq.
    - apply StronglySorted_merge_sort; apply _. }
  exists out, s'. split_and!; try done.
  intros name Hincreasing. apply sorted_arrangement_unique.
  - now apply filter_Permutation.
  - now apply StronglySorted_filter.
  - exact Hincreasing.
Qed.

End ReadBack.

(** C8 (as stated) fails.  Topic A receives a message stamped 200 and
    then a message stamped 100; both are persisted, in that order, and
    the replay loop yields the one stamped 100 first. *)
Lemma replay_reorders_decreasing_stamps :
  let s := perform_all (helper_ := transcript_helper) late_then_early
             session_opened in
  filter (on_topic "A")
    (persisted (helper_ := transcript_helper) late_then_early session_opened)
    = [message_late; message_early] /\
  (replay 2 s).1 = Returned [message_early; message_late] /\
  filter (on_topic "A") [message_early; message_late] <>
  filter (on_topic "A")
    (persisted (helper_ := transcript_helper) late_then_early session_opened).
Proof.
  split_and!; try (vm_compute; reflexivity).
  vm_compute. discriminate.
Qed.

Lemma replay_orders_by_timestamp_witness :
  let s := perform_all (helper_ := transcript_helper) scenario session_opened in
  (Z.of_nat (length (topics (database_ s))) < 2147483648)%Z /\
  length (messages (database_ s)) <= 2 /\
  StronglySorted stamp_lt
    (filter (on_topic "A")
       (persisted (helper_ := transcript_helper) scenario session_opened)) /\
  exists out s',
    replay 2 s = (Returned out, s') /\
    (has_next s').1 = Returned false /\
    filter (on_topic "A") out =
    filter (on_topic "A")
      (persisted (helper_ := transcript_helper) scenario session_opened).
Proof.
  intros s.
  assert (Hbound : (Z.of_nat (length (topics (database_ s))) < 2147483648)%Z)
    by (vm_compute; reflexivity).
  assert (Hfuel : length (messages (database_ s)) <= 2)
    by (vm_compute; repeat constructor).
  assert (Hinc : StronglySorted stamp_lt
            (filter (on_topic "A")
               (persisted (helper_ := transcript_helper) scenario session_opened))).
  { apply (bool_decide_unpack _). vm_compute. exact I. }
  split; [exact Hbound|]. split; [exact Hfuel|]. split; [exact Hinc|].
  destruct (replay_orders_by_timestamp (helper_ := transcript_helper)
              nonce0 "bag.db3" scenario 2 Hbound Hfuel)
    as (out & s' & Hrun & Hend & _ & _ & Horder).
  exists out, s'. split; [exact Hrun|]. split; [exact Hend|].
  exact (Horder "A" Hinc).
Defined.

(** * Further properties *)

(** ** What no call undoes *)

Section AppendOnly.

Context {helper_ : BbrHelper}.

Lemma perform_appends c s :
  topics (database_ s) `prefix_of` topics (database_ (perform c s).2) /\
  messages (database_ s) `prefix_of` messages (database_ (perform c s).2) /\
  node_ s `prefix_of` node_ (perform c s).2 /\
  history s `prefix_of` history (perform c s).2.
Proof.
  destruct c as [f topic|f message|topic]; simpl.
  - destruct (topics_ s !! TopicMetadata.name topic) as [other|] eqn:E.
    + now rewrite (create_topic_tracked _ _ _ _ E).
    + destruct (create_topic_untracked f topic s E)
        as (_ & _ & _ & -> & -> & -> & _).
      destruct f; simpl; split_and!; try done; by apply prefix_app_r.
  - destruct (topics_ s !! SerializedBagMessage.topic_name message)
      as [found|] eqn:E.
    + destruct (write_tracked f message s found E)
        as (_ & _ & _ & -> & -> & -> & _).
      destruct f; simpl; split_and!; try done; by apply prefix_app_r.
    + rewrite (write_untracked _ _ _ E). simpl.
      now destruct (after_prepare_for_writing_frame s)
        as (_ & _ & -> & -> & -> & _).
  - done.
Qed.

(** X1.  Whatever the calls of a session are and whichever of them
    fail, the topics table, the messages table and the list of calls
    received by the node only grow at the end: the rows and calls present
    before the session are still there, unchanged and in the same
    positions, after it; and a name that was tracked is still tracked,
    with the id and nonce it had. *)
Theorem session_is_append_only cs s :
  let s' := perform_all cs s in
  topics (database_ s) `prefix_of` topics (database_ s') /\
  messages (database_ s) `prefix_of` messages (database_ s') /\
  node_ s `prefix_of` node_ s' /\
  forall name found,
    topics_ s !! name = Some found ->
    exists found',
      topics_ s' !! name = Some found' /\
      TopicInfo.id found' = TopicInfo.id found /\
      TopicInfo.nonce found' = TopicInfo.nonce found.
Proof.
  simpl. split_and!.
  1-3: revert s; induction cs as [|c cs IH]; intros s; simpl; [done|];
       destruct (perform_appends c s) as (? & ? & ? & _);
       etransitivity; [eassumption|apply IH].
  intros name found Hfound.
  rewrite (entry_after_calls name cs s found Hfound). eauto.
Qed.

End AppendOnly.

(** ** Row ids *)

Section RowIds.

Context {helper_ : BbrHelper}.

Lemma next_rowid_numbered ids :
  numbered_from_one ids -> next_rowid ids = (Z.of_nat (length ids) + 1)%Z.
Proof.
  intros Hnum.
  assert (1 ≤ next_rowid ids ≤ Z.of_nat (length ids) + 1)%Z as Hle.
  { apply next_rowid_bounds; [|lia].
    intros x (i & Hi)%list_elem_of_lookup.
    pose proof (lookup_lt_Some _ _ _ Hi). rewrite (Hnum _ _ Hi). lia. }
  destruct (decide (length ids = 0)) as [Hz|Hnz].
  - apply length_zero_iff_nil in Hz. now subst.
  - destruct (lookup_lt_is_Some_2 ids (pred (length ids))) as [x Hx]; [lia|].
    assert (x < next_rowid ids)%Z
      by (apply next_rowid_above, list_elem_of_lookup; eauto).
    rewrite (Hnum _ _ Hx) in *. lia.
Qed.

Lemma numbered_from_one_snoc ids :
  numbered_from_one ids -> numbered_from_one (ids ++ [next_rowid ids]).
Proof.
  intros Hnum i x Hi.
  destruct (decide (i < length ids)) as [Hlt|Hge].
  - rewrite lookup_app_l in Hi by done. now apply Hnum.
  - rewrite lookup_app_r in Hi by lia.
    destruct (i - length ids) as [|k] eqn:Ek; [|now destruct k].
    simpl in Hi. injection Hi as <-.
    rewrite (next_rowid_numbered _ Hnum). lia.
Qed.

Lemma perform_numbers_rows c s :
  numbered_from_one (map topics_row.id (topics (database_ s))) ->
  numbered_from_one (map messages_row.id (messages (database_ s))) ->
  numbered_from_one (map topics_row.id (topics (database_ (perform c s).2))) /\
  numbered_from_one (map messages_row.id (messages (database_ (perform c s).2))).
Proof.
  intros Ht Hm. destruct c as [f topic|f message|topic]; simpl.
  - destruct (topics_ s !! TopicMetadata.name topic) as [other|] eqn:E.
    + now rewrite (create_topic_tracked _ _ _ _ E).
    + destruct (create_topic_untracked f topic s E) as (_ & _ & _ & -> & _).
      destruct f; simpl; rewrite ?map_app; simpl; split; try done;
        now apply numbered_from_one_snoc.
  - destruct (topics_ s !! SerializedBagMessage.topic_name message)
      as [found|] eqn:E.
    + destruct (write_tracked f message s found E) as (_ & _ & _ & -> & _).
      destruct f; simpl; rewrite ?map_app; simpl; split; try done;
        now apply numbered_from_one_snoc.
    + rewrite (write_untracked _ _ _ E). simpl.
      now destruct (after_prepare_for_writing_frame s) as (_ & _ & -> & _).
  - done.
Qed.

Lemma session_numbers_rows created_nonce database_name cs :
  let s := perform_all cs (open_read_write created_nonce database_name) in
  numbered_from_one (map topics_row.id (topics (database_ s))) /\
  numbered_from_one (map messages_row.id (messages (database_ s))).
Proof.
  simpl.
  assert (Hnum : forall s,
            numbered_from_one (map topics_row.id (topics (database_ s))) ->
            numbered_from_one (map messages_row.id (messages (database_ s))) ->
            numbered_from_one
              (map topics_row.id (topics (database_ (perform_all cs s)))) /\
            numbered_from_one
              (map messages_row.id (messages (database_ (perform_all cs s))))).
  { induction cs as [|c cs IH]; intros s Ht Hm; simpl; [done|].
    destruct (perform_numbers_rows c s Ht Hm). now apply IH. }
  apply Hnum; intros i x Hi; inversion Hi.
Qed.

(** X2.  In a session begun on a newly opened bag the rows of both
    tables are numbered 1, 2, 3, ... in the order they were inserted,
    whichever calls fail: the row at position [i] has id [i + 1]. *)
Theorem rows_are_numbered_in_insertion_order created_nonce database_name cs :
  let s := perform_all cs (open_read_write created_nonce database_name) in
  (forall i row, topics (database_ s) !! i = Some row ->
     topics_row.id row = (Z.of_nat i + 1)%Z) /\
  (forall i row, messages (database_ s) !! i = Some row ->
     messages_row.id row = (Z.of_nat i + 1)%Z).
Proof.
  destruct (session_numbers_rows created_nonce database_name cs) as [Ht Hm].
  split; intros i row Hrow; [apply Ht|apply Hm];
    rewrite list_lookup_fmap, Hrow; reflexivity.
Qed.

End RowIds.

(** ** The record store mirrors the chain *)

Section Mirror.

Context {helper_ : BbrHelper}.

Lemma store_invariant_distinct_ids ms s n1 n2 i1 i2 :
  store_invariant ms s ->
  topics_ s !! n1 = Some i1 -> topics_ s !! n2 = Some i2 ->
  TopicInfo.id i1 = TopicInfo.id i2 -> n1 = n2.
Proof.
  intros (_ & _ & Hnodup & Hentry & _) H1 H2 Hid.
  destruct (Hentry _ _ H1) as (r1 & Hr1 & Hid1 & Hn1).
  destruct (Hentry _ _ H2) as (r2 & Hr2 & Hid2 & Hn2).
  assert (filter (fun t => topics_row.id t = topics_row.id r1)
            (topics (database_ s)) = [r1]) as Hone
    by now apply filter_unique_id.
  assert (r2 ∈ [r1]) as Hin.
  { rewrite <- Hone. apply list_elem_of_filter. split; [congruence|done]. }
  apply list_elem_of_singleton in Hin. congruence.
Qed.

(** X3.  In a session begun on a newly opened bag (fewer than 2^31
    topic rows), whichever calls fail, every tracked name has a topics
    row carrying its name and its id, and two different tracked names
    have different ids. *)
Theorem tracked_topics_have_their_own_rows created_nonce database_name cs :
  let s := perform_all cs (open_read_write created_nonce database_name) in
  (Z.of_nat (length (topics (database_ s))) < 2147483648)%Z ->
  (forall name info,
     topics_ s !! name = Some info ->
     exists row, row ∈ topics (database_ s) /\
       topics_row.id row = TopicInfo.id info /\
       topics_row.name row = name) /\
  (forall n1 n2 i1 i2,
     topics_ s !! n1 = Some i1 -> topics_ s !! n2 = Some i2 ->
     n1 <> n2 -> TopicInfo.id i1 <> TopicInfo.id i2).
Proof.
  intros s Hbound.
  pose proof (store_invariant_session cs _ []
                (store_invariant_opened created_nonce database_name) Hbound)
    as Hinv.
  fold s in Hinv. split.
  - now destruct Hinv as (_ & _ & _ & Hentry & _).
  - intros n1 n2 i1 i2 H1 H2 Hne Hid.
    apply Hne. eapply store_invariant_distinct_ids; eauto.
Qed.

Lemma durable_digest_insert_message db row topic_id :
  durable_digest (insert_into_messages row db) topic_id =
    if decide (messages_row.topic_id row = topic_id)
    then Some (messages_row.bbr_digest row)
    else durable_digest db topic_id.
Proof.
  unfold durable_digest. simpl. rewrite filter_app, filter_cons, filter_nil.
  case_decide.
  - now rewrite last_snoc.
  - now rewrite app_nil_r.
Qed.

Lemma durable_digest_insert_topic db row topic_id previous :
  durable_digest db topic_id = Some previous ->
  durable_digest (insert_into_topics row db) topic_id = Some previous.
Proof.
  unfold durable_digest. simpl.
  destruct (last (filter _ (messages db))) as [m|]; [done|].
  rewrite filter_app.
  destruct (filter (fun t => topics_row.id t = topic_id) (topics db)); [done|].
  done.
Qed.

Lemma durable_digest_new_topic db row :
  (forall m, m ∈ messages db -> messages_row.topic_id m <> topics_row.id row) ->
  (forall t, t ∈ topics db -> topics_row.id t <> topics_row.id row) ->
  durable_digest (insert_into_topics row db) (topics_row.id row)
    = Some (topics_row.bbr_digest row).
Proof.
  intros Hm Ht. unfold durable_digest. simpl.
  replace (filter (fun m => messages_row.topic_id m = topics_row.id row) (messages db))
    with (@nil messages_row.t).
  2: { symmetry. apply elem_of_nil_inv.
       intros m [Heq Hin]%list_elem_of_filter. now apply (Hm m). }
  simpl. rewrite filter_app.
  replace (filter (fun t => topics_row.id t = topics_row.id row) (topics db))
    with (@nil topics_row.t).
  2: { symmetry. apply elem_of_nil_inv.
       intros t [Heq Hin]%list_elem_of_filter. now apply (Ht t). }
  simpl. rewrite filter_cons_True by done. reflexivity.
Qed.

(** What a fresh topics row is distinct from. *)
Lemma declared_row_is_fresh ms s topic :
  store_invariant ms s ->
  (forall m, m ∈ messages (database_ s) ->
     messages_row.topic_id m <> topics_row.id (declared_row s topic)) /\
  (forall t, t ∈ topics (database_ s) ->
     topics_row.id t <> topics_row.id (declared_row s topic)) /\
  (1 ≤ topics_row.id (declared_row s topic)
     ≤ Z.of_nat (length (topics (database_ s))) + 1)%Z.
Proof.
  intros (_ & _ & _ & _ & Hrefs & Hids).
  assert (Habove : forall x, x ∈ map topics_row.id (topics (database_ s)) ->
                     (x < topics_row.id (declared_row s topic))%Z)
    by (intros x Hx; now apply next_rowid_above).
  split; [|split].
  - intros m Hm Heq. specialize (Habove _ (Hrefs m Hm)). lia.
  - intros t Ht Heq.
    assert (topics_row.id t ∈ map topics_row.id (topics (database_ s))) as Hin
      by (apply list_elem_of_fmap; eauto).
    specialize (Habove _ Hin). lia.
  - apply next_rowid_bounds; [|lia].
    intros x (r & -> & Hr)%list_elem_of_fmap. now apply Hids.
Qed.

Lemma memory_matches_store_perform ms c s :
  fault_of c = NoFault ->
  (Z.of_nat (length (topics (database_ (perform c s).2))) < 2147483648)%Z ->
  store_invariant ms s ->
  memory_matches_store s ->
  memory_matches_store (perform c s).2.
Proof.
  intros Hf Hbound Hinv Hmatch.
  destruct c as [f topic|f message|topic]; simpl in *; subst; [| |done].
  - destruct (topics_ s !! TopicMetadata.name topic) as [other|] eqn:E.
    { now rewrite (create_topic_tracked _ _ _ _ E). }
    destruct (create_topic_untracked NoFault topic s E)
      as (_ & Ht & _ & Hdb & _).
    destruct (declared_row_is_fresh ms s topic Hinv) as (Hfm & Hft & Hrange).
    rewrite Hdb in Hbound. simpl in Hbound. rewrite length_app in Hbound.
    simpl in Hbound.
    intros name info. rewrite Ht, Hdb.
    destruct (decide (TopicMetadata.name topic = name)) as [<-|Hne].
    + rewrite lookup_insert_eq. intros [= <-].
      change (TopicInfo.id (declared_entry s topic))
        with (static_cast_int (topics_row.id (declared_row s topic))).
      rewrite static_cast_int_small by lia.
      now apply durable_digest_new_topic.
    + rewrite lookup_insert_ne by done. intros Hinfo.
      apply durable_digest_insert_topic. exact (Hmatch _ _ Hinfo).
  - destruct (topics_ s !! SerializedBagMessage.topic_name message)
      as [found|] eqn:E.
    + destruct (write_tracked NoFault message s found E)
        as (_ & Ht & _ & Hdb & _).
      intros name info. rewrite Ht, Hdb, durable_digest_insert_message. simpl.
      destruct (decide (SerializedBagMessage.topic_name message = name)) as [<-|Hne].
      * rewrite lookup_insert_eq. intros [= <-]. simpl.
        now rewrite decide_True.
      * rewrite lookup_insert_ne by done. intros Hinfo.
        rewrite decide_False; [exact (Hmatch _ _ Hinfo)|].
        intros Hid. apply Hne.
        eapply store_invariant_distinct_ids; eauto.
    + rewrite (write_untracked _ _ _ E). simpl.
      destruct (after_prepare_for_writing_frame s) as (Ht & _ & Hdb & _).
      intros name info. rewrite Ht, Hdb. exact (Hmatch name info).
Qed.

Lemma memory_matches_store_session ms cs s :
  fault_free cs ->
  (Z.of_nat (length (topics (database_ (perform_all cs s)))) < 2147483648)%Z ->
  store_invariant ms s ->
  memory_matches_store s ->
  memory_matches_store (perform_all cs s).
Proof.
  revert ms s. induction cs as [|c cs IH]; intros ms s Hff Hbound Hinv Hmatch;
    simpl in *; [done|].
  apply Forall_cons in Hff as [Hc Hcs].
  pose proof (topics_table_grows_all cs (perform c s).2) as Hgrow.
  assert (Hstep : (Z.of_nat (length (topics (database_ (perform c s).2)))
                   < 2147483648)%Z) by lia.
  apply (IH (ms ++ persisted_by c s)); try done.
  - apply (store_invariant_session [c] s ms Hinv) in Hstep.
    simpl in Hstep. now rewrite app_nil_r in Hstep.
  - now apply (memory_matches_store_perform ms).
Qed.

(** X4.  In a session without collaborator failures begun on a newly
    opened bag (fewer than 2^31 topic rows), the digest held in memory
    for every tracked topic is the digest of the last row the record
    store holds for it: of its latest messages row, or of its topics row
    while it has no message. *)
Theorem fault_free_memory_matches_store created_nonce database_name cs :
  let s := perform_all cs (open_read_write created_nonce database_name) in
  fault_free cs ->
  (Z.of_nat (length (topics (database_ s))) < 2147483648)%Z ->
  forall name info,
    topics_ s !! name = Some info ->
    durable_digest (database_ s) (TopicInfo.id info)
      = Some (TopicInfo.digest info).
Proof.
  intros s Hff Hbound.
  apply (memory_matches_store_session [] cs);
    [exact Hff | exact Hbound | apply store_invariant_opened |].
  intros name info. simpl. now rewrite lookup_empty.
Qed.

Lemma durable_digest_ext db1 db2 topic_id :
  topics db1 = topics db2 -> messages db1 = messages db2 ->
  durable_digest db1 topic_id = durable_digest db2 topic_id.
Proof. unfold durable_digest. now intros -> ->. Qed.

Lemma store_verifies_perform ms c s :
  fault_of c = NoFault ->
  store_invariant ms s ->
  memory_matches_store s ->
  store_verifies (database_ s) ->
  store_verifies (database_ (perform c s).2).
Proof.
  intros Hf Hinv Hmatch Hver.
  destruct c as [f topic|f message|topic]; simpl in *; subst; [| |done].
  - destruct (topics_ s !! TopicMetadata.name topic) as [other|] eqn:E.
    { now rewrite (create_topic_tracked _ _ _ _ E). }
    destruct (create_topic_untracked NoFault topic s E)
      as (_ & _ & _ & -> & _).
    intros before row after Hsplit. simpl in Hsplit.
    destruct (Hver before row after Hsplit) as (t & previous & Ht & Hid & Hprev & Hd).
    exists t, previous. simpl. split_and!; try done.
    + apply elem_of_app. now left.
    + rewrite <- (durable_digest_insert_topic _ (declared_row s topic) _ _ Hprev).
      now apply durable_digest_ext.
  - destruct (topics_ s !! SerializedBagMessage.topic_name message)
      as [found|] eqn:E.
    + destruct (write_tracked NoFault message s found E)
        as (_ & _ & _ & -> & _).
      intros before row after Hsplit. simpl in Hsplit.
      destruct after as [|last_row after _] using rev_ind.
      * apply app_inj_tail in Hsplit as [<- <-].
        destruct Hinv as (_ & _ & _ & Hentry & _).
        destruct (Hentry _ _ E) as (t & Ht & Hid & Hname).
        exists t, (TopicInfo.digest found). simpl. split_and!; try done.
        -- rewrite <- (Hmatch _ _ E). now apply durable_digest_ext.
        -- unfold row_message. simpl. rewrite Hname. now destruct message.
      * rewrite app_comm_cons, app_assoc in Hsplit.
        apply app_inj_tail in Hsplit as [Hsplit _].
        destruct (Hver before row after Hsplit)
          as (t & previous & Ht & Hid & Hprev & Hd).
        exists t, previous. now simpl.
    + rewrite (write_untracked _ _ _ E). simpl.
      now destruct (after_prepare_for_writing_frame s) as (_ & _ & -> & _).
Qed.

Lemma store_verifies_session ms cs s :
  fault_free cs ->
  (Z.of_nat (length (topics (database_ (perform_all cs s)))) < 2147483648)%Z ->
  store_invariant ms s ->
  memory_matches_store s ->
  store_verifies (database_ s) ->
  store_verifies (database_ (perform_all cs s)).
Proof.
  revert ms s. induction cs as [|c cs IH];
    intros ms s Hff Hbound Hinv Hmatch Hver; simpl in *; [done|].
  apply Forall_cons in Hff as [Hc Hcs].
  pose proof (topics_table_grows_all cs (perform c s).2) as Hgrow.
  assert (Hstep : (Z.of_nat (length (topics (database_ (perform c s).2)))
                   < 2147483648)%Z) by lia.
  apply (IH (ms ++ persisted_by c s)); try done.
  - apply (store_invariant_session [c] s ms Hinv) in Hstep.
    simpl in Hstep. now rewrite app_nil_r in Hstep.
  - now apply (memory_matches_store_perform ms).
  - now apply (store_verifies_perform ms).
Qed.

(** X5.  After a session without collaborator failures begun on a
    newly opened bag (fewer than 2^31 topic rows), the messages table can
    be checked row by row: each row belongs to a topics row, and its
    digest is [computeMessageDigest] applied to the digest the store held
    for that topic just before the row and to the message rebuilt from
    the row's data, its timestamp and the topic's name. *)
Theorem fault_free_store_verifies created_nonce database_name cs :
  let s := perform_all cs (open_read_write created_nonce database_name) in
  fault_free cs ->
  (Z.of_nat (length (topics (database_ s))) < 2147483648)%Z ->
  forall before row after,
    messages (database_ s) = before ++ row :: after ->
    exists t previous,
      t ∈ topics (database_ s) /\
      topics_row.id t = messages_row.topic_id row /\
      durable_digest (mkSqliteWrapper (topics (database_ s)) before 0)
        (messages_row.topic_id row) = Some previous /\
      messages_row.bbr_digest row
        = computeMessageDigest previous (row_message (topics_row.name t) row).
Proof.
  intros s Hff Hbound.
  apply (store_verifies_session [] cs);
    [exact Hff | exact Hbound | apply store_invariant_opened | |].
  - intros name info. simpl. now rewrite lookup_empty.
  - intros before row after Hsplit. simpl in Hsplit.
    now destruct before.
Qed.

End Mirror.

(** ** Fields the writing calls leave alone *)

Section ReaderFields.

Context {helper_ : BbrHelper}.

Lemma perform_keeps_reader_fields c s :
  read_statement_ (perform c s).2 = read_statement_ s /\
  message_result_ (perform c s).2 = message_result_ s /\
  current_message_row_ (perform c s).2 = current_message_row_ s /\
  all_topics_and_types_ (perform c s).2 = all_topics_and_types_ s /\
  database_name_ (perform c s).2 = database_name_ s.
Proof.
  destruct c as [f topic|f message|topic]; simpl; [| |done].
  - unfold create_topic, bind, get.
    destruct (topics_ s !! TopicMetadata.name topic) eqn:E; [done|].
    destruct f; simpl; rewrite ?E; done.
  - unfold write, bind, get.
    destruct f, (write_statement_ s); simpl;
      destruct (topics_ s !! SerializedBagMessage.topic_name message); done.
Qed.

Lemma perform_all_keeps_reader_fields cs s :
  read_statement_ (perform_all cs s) = read_statement_ s /\
  message_result_ (perform_all cs s) = message_result_ s /\
  current_message_row_ (perform_all cs s) = current_message_row_ s /\
  all_topics_and_types_ (perform_all cs s) = all_topics_and_types_ s /\
  database_name_ (perform_all cs s) = database_name_ s.
Proof.
  revert s. induction cs as [|c cs IH]; intros s; simpl; [done|].
  destruct (IH (perform c s).2) as (-> & -> & -> & -> & ->).
  apply perform_keeps_reader_fields.
Qed.

(** *** The list of topics *)

Lemma get_all_topics_and_types_cached s :
  all_topics_and_types_ s <> [] ->
  get_all_topics_and_types s = (Returned (all_topics_and_types_ s), s).
Proof.
  intros Hne. unfold get_all_topics_and_types, bind, get, ret.
  destruct (all_topics_and_types_ s) eqn:E; [done|]. simpl. now rewrite E.
Qed.

Lemma get_all_topics_and_types_fills s :
  all_topics_and_types_ s = [] ->
  get_all_topics_and_types s =
    (Returned (select_topics_ordered (database_ s)),
     set_all_topics_and_types_ (select_topics_ordered (database_ s)) s).
Proof.
  intros Hnil. unfold get_all_topics_and_types, bind, get. rewrite Hnil.
  unfold fill_topics_and_types, modify. simpl. now rewrite Hnil.
Qed.

Lemma get_all_topics_and_types_result s :
  exists l,
    (get_all_topics_and_types s).1 = Returned l /\
    all_topics_and_types_ (get_all_topics_and_types s).2 = l.
Proof.
  destruct (all_topics_and_types_ s) as [|t l] eqn:E.
  - rewrite (get_all_topics_and_types_fills s E). eauto.
  - rewrite get_all_topics_and_types_cached by congruence. simpl.
    rewrite E. eauto.
Qed.

(** X6.  Once [get_all_topics_and_types] has returned a non-empty
    list, every later call returns that same list, whatever is declared
    or written in between: topics created afterwards are not reported. *)
Theorem topic_list_is_never_refreshed s l cs :
  (get_all_topics_and_types s).1 = Returned l ->
  l <> [] ->
  (get_all_topics_and_types
     (perform_all cs (get_all_topics_and_types s).2)).1 = Returned l.
Proof.
  intros Hfirst Hne.
  destruct (get_all_topics_and_types_result s) as (l' & Hl' & Hcache).
  assert (l' = l) by congruence. subst l'.
  set (s1 := (get_all_topics_and_types s).2) in *.
  destruct (perform_all_keeps_reader_fields cs s1) as (_ & _ & _ & Hkeep & _).
  rewrite get_all_topics_and_types_cached; simpl; congruence.
Qed.

Lemma StronglySorted_of_lookups {A} (R : relation A) (l : list A) :
  (forall i j x y, i < j -> l !! i = Some x -> l !! j = Some y -> R x y) ->
  StronglySorted R l.
Proof.
  induction l as [|a l IH]; intros Hl; constructor.
  - apply IH. intros i j x y Hij Hx Hy. apply (Hl (S i) (S j)); [lia|done..].
  - apply Forall_forall. intros y (j & Hj)%list_elem_of_lookup.
    apply (Hl 0 (S j)); [lia|done..].
Qed.

Lemma merge_sort_by_id_numbered (rows : list topics_row.t) :
  numbered_from_one (map topics_row.id rows) ->
  merge_sort by_id rows = rows.
Proof.
  intros Hnum.
  assert (Hid : forall i row, rows !! i = Some row ->
                  topics_row.id row = (Z.of_nat i + 1)%Z).
  { intros i row Hrow. apply Hnum. now rewrite list_lookup_fmap, Hrow. }
  assert (Htrans : Transitive by_id) by (intros a b c; unfold by_id; lia).
  assert (Htotal : Total by_id) by (intros a b; unfold by_id; lia).
  apply (StronglySorted_unique_strong by_id).
  - intros x1 x2 Hx1 Hx2 Hle Hge. unfold by_id in *.
    rewrite merge_sort_Permutation in Hx1.
    apply list_elem_of_lookup in Hx1 as (i & Hi).
    apply list_elem_of_lookup in Hx2 as (j & Hj).
    pose proof (Hid _ _ Hi). pose proof (Hid _ _ Hj).
    assert (i = j) by lia. congruence.
  - now apply StronglySorted_merge_sort.
  - apply StronglySorted_of_lookups. intros i j x y Hij Hx Hy.
    unfold by_id. rewrite (Hid _ _ Hx), (Hid _ _ Hy). lia.
  - apply merge_sort_Permutation.
Qed.

(** X7.  After a session begun on a newly opened bag, the first call
    of [get_all_topics_and_types] returns the name, type and
    serialization format of every topics row, in the order the rows were
    inserted, whichever calls of the session failed. *)
Theorem topic_list_follows_insertion_order created_nonce database_name cs :
  let s := perform_all cs (open_read_write created_nonce database_name) in
  (get_all_topics_and_types s).1 =
    Returned (map row_metadata (topics (database_ s))).
Proof.
  intros s.
  assert (Hnil : all_topics_and_types_ s = []).
  { unfold s.
    now destruct (perform_all_keeps_reader_fields cs
                    (open_read_write created_nonce database_name))
      as (_ & _ & _ & -> & _). }
  rewrite (get_all_topics_and_types_fills s Hnil). simpl.
  unfold select_topics_ordered. rewrite merge_sort_by_id_numbered; [done|].
  apply (session_numbers_rows created_nonce database_name cs).
Qed.

End ReaderFields.

(** ** The read cursor *)

Section Cursor.

Context {helper_ : BbrHelper}.

Lemma read_next_prepared_at_end s :
  read_statement_ s = true ->
  message_result_ s !! current_message_row_ s = None ->
  read_next s = (Thrown undefined_behaviour, s).
Proof.
  intros H Hrow. unfold read_next, bind, get. rewrite H. unfold ret at 1.
  cbv beta iota.
  match goal with
  | |- (match ?x with Some _ => _ | None => _ end) _ = _ =>
    replace x with (@None message_row) by (symmetry; exact Hrow)
  end.
  reflexivity.
Qed.

(** What the replay loop yields depends on the cursor alone. *)
Lemma replay_reads_the_cursor fuel s1 s2 :
  read_statement_ s1 = true -> read_statement_ s2 = true ->
  message_result_ s1 = message_result_ s2 ->
  current_message_row_ s1 = current_message_row_ s2 ->
  (replay fuel s1).1 = (replay fuel s2).1.
Proof.
  revert s1 s2. induction fuel as [|fuel IH]; intros s1 s2 H1 H2 Hres Hcur;
    [done|].
  rewrite !replay_S, (has_next_prepared s1 H1), (has_next_prepared s2 H2).
  rewrite <- Hres, <- Hcur.
  destruct (negb (current_message_row_ s1 =? length (message_result_ s1)));
    [|done].
  destruct (message_result_ s1 !! current_message_row_ s1) as [row|] eqn:Hrow.
  - rewrite (read_next_prepared s1 row H1 Hrow).
    rewrite (read_next_prepared s2 row H2) by (now rewrite <- Hres, <- Hcur).
    specialize (IH (set_current_message_row_ (S (current_message_row_ s1)) s1)
                   (set_current_message_row_ (S (current_message_row_ s2)) s2)).
    simpl in IH. specialize (IH H1 H2 Hres (f_equal S Hcur)).
    destruct (replay fuel _) as [[rest1|e1] s1'], (replay fuel _) as [[rest2|e2] s2'];
      simpl in *; congruence.
  - rewrite (read_next_prepared_at_end s1 H1 Hrow).
    rewrite (read_next_prepared_at_end s2 H2) by (now rewrite <- Hres, <- Hcur).
    reflexivity.
Qed.

(** X8.  The cursor is a snapshot taken by the first [has_next] or
    [read_next]: once the read statement exists, declaring topics and
    writing messages does not change what the replay loop yields, so
    messages written after the first read are not read back. *)
Theorem cursor_is_a_snapshot s cs fuel :
  read_statement_ s = true ->
  (replay fuel (perform_all cs s)).1 = (replay fuel s).1.
Proof.
  intros Hprep.
  destruct (perform_all_keeps_reader_fields cs s) as (Hr & Hm & Hc & _).
  apply replay_reads_the_cursor; congruence.
Qed.

(** X9.  On any database opened for reading, the replay loop, given
    at least as many iterations as the join has rows, returns and leaves
    [has_next] false; it yields the rows of the join of the messages with
    their topics, each once, arranged by non-decreasing timestamp, and
    leaves the database as it was. *)
Theorem replay_of_any_database created_nonce database_name db fuel :
  length (messages_join_topics db) <= fuel ->
  exists out s',
    replay fuel (open_read_only created_nonce database_name db)
      = (Returned out, s') /\
    (has_next s').1 = Returned false /\
    out ≡ₚ map joined_message (messages_join_topics db) /\
    StronglySorted stamp_le out /\
    database_ s' = db.
Proof.
  intros Hfuel.
  set (s := open_read_only created_nonce database_name db).
  assert (Hperm : merge_sort by_timestamp (messages_join_topics db)
                  ≡ₚ messages_join_topics db) by apply merge_sort_Permutation.
  destruct (replay_unprepared fuel s eq_refl) as (s' & Hrun & Hend & Hdb).
  { simpl. unfold select_messages_ordered. now rewrite length_map, Hperm. }
  rewrite read_row_select in Hrun. simpl in Hrun, Hdb.
  eexists _, s'. split_and!; try done.
  - now apply Permutation_map.
  - apply (StronglySorted_fmap joined_message by_timestamp stamp_le).
    + intros p q Hpq. exact Hpq.
    + apply StronglySorted_merge_sort;
        [apply by_timestamp_transitive | apply by_timestamp_total].
Qed.

(** The join keeps the message rows that refer to a topics row. *)
Lemma join_keeps_matched_rows db :
  NoDup (map topics_row.id (topics db)) ->
  map fst (messages_join_topics db) =
    filter (fun m => messages_row.topic_id m ∈ map topics_row.id (topics db))
      (messages db).
Proof.
  intros Hnodup. unfold messages_join_topics.
  induction (messages db) as [|m ms IH]; [done|].
  rewrite bind_cons, map_app, IH, filter_cons. f_equal. clear IH.
  case_decide as Hin.
  - apply list_elem_of_fmap in Hin as (t & Hid & Ht).
    rewrite Hid, (filter_unique_id _ t Hnodup Ht). reflexivity.
  - replace (filter (fun t => topics_row.id t = messages_row.topic_id m) (topics db))
      with (@nil topics_row.t); [done|].
    symmetry. apply elem_of_nil_inv. intros t [Heq Ht]%list_elem_of_filter.
    apply Hin, list_elem_of_fmap. eauto.
Qed.

Lemma join_is_matched_messages db :
  NoDup (map topics_row.id (topics db)) ->
  map joined_message (messages_join_topics db) =
    omap (matched_message db) (messages db).
Proof.
  intros Hnodup. unfold messages_join_topics.
  induction (messages db) as [|m ms IH]; [done|].
  rewrite bind_cons, map_app, IH. clear IH. simpl. unfold matched_message at 2.
  destruct (filter (fun t => topics_row.id t = messages_row.topic_id m) (topics db))
    as [|t rest] eqn:E; [done|].
  assert (Ht : t ∈ filter (fun t => topics_row.id t = messages_row.topic_id m)
                 (topics db)) by (rewrite E; apply list_elem_of_here).
  apply list_elem_of_filter in Ht as [Hid Ht].
  rewrite <- Hid, (filter_unique_id _ t Hnodup Ht) in E.
  injection E as <-. reflexivity.
Qed.

(** X10.  On a database whose topic ids are distinct, the replay loop
    yields, arranged by non-decreasing timestamp, exactly one message
    for every messages row whose [topic_id] is the id of a topics row,
    built from the row and from that topics row's name, and none for the
    other rows: rows that refer to a missing topic are skipped without an
    error. *)
Theorem replay_skips_rows_without_topic created_nonce database_name db fuel :
  NoDup (map topics_row.id (topics db)) ->
  length (messages db) <= fuel ->
  exists out s',
    replay fuel (open_read_only created_nonce database_name db)
      = (Returned out, s') /\
    out ≡ₚ omap (matched_message db) (messages db) /\
    StronglySorted stamp_le out /\
    (forall m t, t ∈ topics db ->
       topics_row.id t = messages_row.topic_id m ->
       matched_message db m = Some (joined_message (m, t))) /\
    (forall m, messages_row.topic_id m ∉ map topics_row.id (topics db) ->
       matched_message db m = None) /\
    length out =
      length (filter (fun m => messages_row.topic_id m
                                 ∈ map topics_row.id (topics db))
                (messages db)).
Proof.
  intros Hnodup Hfuel.
  set (s := open_read_only created_nonce database_name db).
  pose proof (join_keeps_matched_rows db Hnodup) as Hfst.
  assert (Hlen : length (messages_join_topics db) <= length (messages db)).
  { rewrite <- (length_map fst), Hfst. apply length_filter. }
  assert (Hperm : merge_sort by_timestamp (messages_join_topics db)
                  ≡ₚ messages_join_topics db) by apply merge_sort_Permutation.
  destruct (replay_unprepared fuel s eq_refl) as (s' & Hrun & _).
  { simpl. unfold select_messages_ordered. rewrite length_map, Hperm. lia. }
  rewrite read_row_select in Hrun. simpl in Hrun.
  eexists _, s'. split_and!; try done.
  - rewrite <- (join_is_matched_messages db Hnodup).
    now apply Permutation_map.
  - apply (StronglySorted_fmap joined_message by_timestamp stamp_le).
    + intros p q Hpq. exact Hpq.
    + apply StronglySorted_merge_sort;
        [apply by_timestamp_transitive | apply by_timestamp_total].
  - intros m t Ht Hid. unfold matched_message.
    now rewrite <- Hid, (filter_unique_id _ t Hnodup Ht).
  - intros m Hnone. unfold matched_message.
    replace (filter (fun t => topics_row.id t = messages_row.topic_id m) (topics db))
      with (@nil topics_row.t); [done|].
    symmetry. apply elem_of_nil_inv. intros t [Heq Ht]%list_elem_of_filter.
    apply Hnone, list_elem_of_fmap. eauto.
  - now rewrite length_map, Hperm, <- (length_map fst), Hfst.
Qed.

End Cursor.

(** ** A declaration whose publication failed *)

Section Retry.

Context {helper_ : BbrHelper}.

(** X11.  When the node's call throws during [create_topic], the
    topics row has been inserted but the name stays untracked: a [write]
    for it is rejected as an unknown topic, and declaring the topic again
    inserts a second row with the same name, type and format, whose nonce
    continues the chain from the first row, and tracks the topic under
    the id of the second row. *)
Theorem failed_publication_then_retry what topic s :
  topics_ s !! TopicMetadata.name topic = None ->
  let s1 := (create_topic (PublicationFailure what) topic s).2 in
  let s2 := (create_topic NoFault topic s1).2 in
  topics_ s1 !! TopicMetadata.name topic = None /\
  (forall f message,
     SerializedBagMessage.topic_name message = TopicMetadata.name topic ->
     (write f message s1).1 = Thrown (unknown_topic (TopicMetadata.name topic))) /\
  exists row1 row2,
    topics (database_ s2) = topics (database_ s) ++ [row1; row2] /\
    row_metadata row1 = topic /\ row_metadata row2 = topic /\
    topics_row.bbr_nonce row1 = nonce_ s /\
    topics_row.bbr_nonce row2 =
      computeTopicNonce (topics_row.bbr_digest row1) topic /\
    (topics_row.id row1 < topics_row.id row2)%Z /\
    node_ s2 = node_ s ++ [create_record (topics_row.bbr_digest row2) topic] /\
    topics_ s2 !! TopicMetadata.name topic =
      Some (TopicInfo.mk (static_cast_int (topics_row.id row2))
              (topics_row.bbr_digest row2) (topics_row.bbr_digest row2)).
Proof.
  intros Hnone s1 s2.
  destruct (create_topic_untracked (PublicationFailure what) topic s Hnone)
    as (_ & Ht1 & Hn1 & Hdb1 & Hnode1 & _).
  fold s1 in Ht1, Hn1, Hdb1, Hnode1.
  assert (Hnone1 : topics_ s1 !! TopicMetadata.name topic = None)
    by now rewrite Ht1.
  destruct (create_topic_untracked NoFault topic s1 Hnone1)
    as (_ & Ht2 & _ & Hdb2 & Hnode2 & _).
  fold s2 in Ht2, Hdb2, Hnode2.
  split; [exact Hnone1|]. split.
  - intros f message Hname. rewrite <- Hname in *.
    now rewrite (write_untracked f message s1 Hnone1).
  - exists (declared_row s topic), (declared_row s1 topic).
    rewrite Hdb2, Hdb1, Hnode2, Hnode1, Ht2, lookup_insert_eq. simpl.
    rewrite <- app_assoc. split_and!; try done.
    + now destruct topic.
    + now destruct topic.
    + rewrite Hdb1. simpl. apply next_rowid_above.
      rewrite map_app. apply elem_of_app. right. now left.
Qed.

End Retry.

(** ** The summary of a bag *)

Section Summary.

Context {bare_columns_ : BareColumns}.

Lemma count_where_split {A} (P Q : A -> Prop)
    `{forall x, Decision (P x)} `{forall x, Decision (Q x)} (l : list A) :
  (forall x, x ∈ l -> P x -> Q x -> False) ->
  length (filter (fun x => P x \/ Q x) l) =
  length (filter P l) + length (filter Q l).
Proof.
  induction l as [|x l IH]; intros Hdisj; [done|].
  rewrite !filter_cons.
  assert (Hl : forall y, y ∈ l -> P y -> Q y -> False)
    by (intros y Hy; apply Hdisj; now right).
  specialize (IH Hl).
  assert (Hx : P x -> Q x -> False) by (apply Hdisj; now left).
  repeat case_decide; simpl; try lia; tauto.
Qed.

(** Grouping by a key splits a list: the group sizes add up to its
    length. *)
Lemma group_sizes_add_up {A K} `{EqDecision K} (key : A -> K) (l : list A)
    (ks : list K) :
  NoDup ks ->
  sum_list (map (fun k => length (filter (fun x => key x = k) l)) ks) =
  length (filter (fun x => key x ∈ ks) l).
Proof.
  induction 1 as [|k ks Hk Hnodup IH]; simpl.
  - induction l as [|x l IHl]; [done|].
    rewrite filter_cons. case_decide as Hin; [inversion Hin|done].
  - rewrite IH, <- count_where_split.
    + f_equal. apply list_filter_iff. intros x. rewrite elem_of_cons. tauto.
    + intros x _ -> Hin. done.
Qed.

Lemma filter_keeps_all {A} (P : A -> Prop) `{forall x, Decision (P x)}
    (l : list A) :
  (forall x, x ∈ l -> P x) -> filter P l = l.
Proof.
  induction l as [|x l IH]; intros Hall; [done|].
  rewrite filter_cons_True by (apply Hall; now left).
  f_equal. apply IH. intros y Hy. apply Hall. now right.
Qed.

Lemma group_sizes_cover {A K} `{EqDecision K} (key : A -> K) (l : list A)
    (ks : list K) :
  NoDup ks -> (forall x, x ∈ l -> key x ∈ ks) ->
  sum_list (map (fun k => length (filter (fun x => key x = k) l)) ks) = length l.
Proof.
  intros Hnodup Hall. rewrite group_sizes_add_up by done.
  f_equal. now apply filter_keeps_all.
Qed.

(** The smallest and the largest element of a non-empty list, as the
    aggregates MIN and MAX compute them. *)
Lemma foldr_min_is_least (x : Z) (l : list Z) :
  foldr Z.min x (x :: l) ∈ x :: l /\
  forall y, y ∈ x :: l -> (foldr Z.min x (x :: l) ≤ y)%Z.
Proof.
  assert (Hgen : forall l' : list Z,
            (foldr Z.min x l' = x \/ foldr Z.min x l' ∈ l') /\
            (foldr Z.min x l' ≤ x)%Z /\
            forall y, y ∈ l' -> (foldr Z.min x l' ≤ y)%Z).
  { induction l' as [|a l' (Hin & Hle & Hall)]; simpl.
    - split_and!; [now left|lia|]. intros y Hy. inversion Hy.
    - split_and!.
      + destruct (Z.min_spec a (foldr Z.min x l')) as [[_ ->]|[_ ->]].
        * right. now left.
        * destruct Hin as [->|Hin]; [now left|right; now right].
      + lia.
      + intros y [->|Hy]%elem_of_cons; [lia|]. specialize (Hall _ Hy). lia. }
  destruct (Hgen (x :: l)) as (Hin & _ & Hall). split; [|exact Hall].
  destruct Hin as [->|Hin]; [now left|exact Hin].
Qed.

Lemma foldr_max_is_greatest (x : Z) (l : list Z) :
  foldr Z.max x (x :: l) ∈ x :: l /\
  forall y, y ∈ x :: l -> (y ≤ foldr Z.max x (x :: l))%Z.
Proof.
  assert (Hgen : forall l' : list Z,
            (foldr Z.max x l' = x \/ foldr Z.max x l' ∈ l') /\
            (x ≤ foldr Z.max x l')%Z /\
            forall y, y ∈ l' -> (y ≤ foldr Z.max x l')%Z).
  { induction l' as [|a l' (Hin & Hle & Hall)]; simpl.
    - split_and!; [now left|lia|]. intros y Hy. inversion Hy.
    - split_and!.
      + destruct (Z.max_spec a (foldr Z.max x l')) as [[_ ->]|[_ ->]].
        * destruct Hin as [->|Hin]; [now left|right; now right].
        * right. now left.
      + lia.
      + intros y [->|Hy]%elem_of_cons; [lia|]. specialize (Hall _ Hy). lia. }
  destruct (Hgen (x :: l)) as (Hin & _ & Hall). split; [|exact Hall].
  destruct Hin as [->|Hin]; [now left|exact Hin].
Qed.

(** The loop of [get_metadata], in closed form. *)
Lemma get_metadata_loop rows with_count message_count min_time max_time :
  Forall (fun r => (0 ≤ summary_count r < 2147483648)%Z) rows ->
  (0 ≤ message_count)%Z ->
  (message_count + Z.of_nat (sum_list (map (fun r => Z.to_nat (summary_count r)) rows))
     < 18446744073709551616)%Z ->
  fold_left get_metadata_step rows
    (with_count, message_count, min_time, max_time) =
  (with_count ++
     map (fun r => let '(name, type, format, count, _, _) := r in
                   (TopicMetadata.mk name type format, count)) rows,
   (message_count
    + Z.of_nat (sum_list (map (fun r => Z.to_nat (summary_count r)) rows)))%Z,
   fold_left Z.min (map summary_min rows) min_time,
   fold_left Z.max (map summary_max rows) max_time).
Proof.
  revert with_count message_count min_time max_time.
  induction rows as [|r rows IH];
    intros with_count message_count min_time max_time Hcounts Hmc Hsum; simpl.
  - now rewrite app_nil_r, Z.add_0_r.
  - apply Forall_cons in Hcounts as [Hr Hcounts].
    destruct r as [[[[[name type] format] count] min_stamp] max_stamp].
    simpl in *.
    set (rest := sum_list (map (fun r => Z.to_nat (summary_count r)) rows)) in *.
    assert (Hint : static_cast_int count = count)
      by (apply static_cast_int_small; lia).
    assert (Hsize : static_cast_size_t count = count)
      by (unfold static_cast_size_t; rewrite Z.mod_small; lia).
    rewrite Hint, Hsize.
    assert (Hacc : static_cast_size_t (message_count + count)
                   = (message_count + count)%Z)
      by (unfold static_cast_size_t; rewrite Z.mod_small; lia).
    rewrite Hacc, IH; [|done|lia|fold rest; lia].
    fold rest. rewrite <- app_assoc. simpl.
    replace (message_count + count + Z.of_nat rest)%Z
      with (message_count + Z.of_nat (Z.to_nat count + rest))%Z by lia.
    replace (if (min_stamp <? min_time)%Z then min_stamp else min_time)
      with (Z.min min_time min_stamp)
      by (destruct (Z.ltb_spec min_stamp min_time); lia).
    replace (if (max_stamp >? max_time)%Z then max_stamp else max_time)
      with (Z.max max_time max_stamp)
      by (destruct (Z.gtb_spec max_stamp max_time); lia).
    reflexivity.
Qed.

Lemma fold_left_min_bounds (l : list Z) (x : Z) :
  (fold_left Z.min l x = x \/ fold_left Z.min l x ∈ l) /\
  (fold_left Z.min l x ≤ x)%Z /\
  forall y, y ∈ l -> (fold_left Z.min l x ≤ y)%Z.
Proof.
  revert x. induction l as [|a l IH]; intros x; simpl.
  - split_and!; [now left|lia|]. intros y Hy. inversion Hy.
  - destruct (IH (Z.min x a)) as (Hin & Hle & Hall). split_and!.
    + destruct Hin as [Heq|Hin]; [|right; now right].
      rewrite Heq. destruct (Z.min_spec x a) as [[_ ->]|[_ ->]];
        [now left|right; now left].
    + lia.
    + intros y [->|Hy]%elem_of_cons; [lia|now apply Hall].
Qed.

Lemma fold_left_max_bounds (l : list Z) (x : Z) :
  (fold_left Z.max l x = x \/ fold_left Z.max l x ∈ l) /\
  (x ≤ fold_left Z.max l x)%Z /\
  forall y, y ∈ l -> (y ≤ fold_left Z.max l x)%Z.
Proof.
  revert x. induction l as [|a l IH]; intros x; simpl.
  - split_and!; [now left|lia|]. intros y Hy. inversion Hy.
  - destruct (IH (Z.max x a)) as (Hin & Hle & Hall). split_and!.
    + destruct Hin as [Heq|Hin]; [|right; now right].
      rewrite Heq. destruct (Z.max_spec x a) as [[_ ->]|[_ ->]];
        [right; now left|now left].
    + lia.
    + intros y [->|Hy]%elem_of_cons; [lia|now apply Hall].
Qed.

Lemma nonempty_has_element {A} (l : list A) : l <> [] -> exists x, x ∈ l.
Proof. destruct l as [|x l]; [done|]. exists x. now left. Qed.

Lemma group_summary_aggregates name (group : list (messages_row.t * topics_row.t)) :
  group <> [] ->
  let stamps := map (fun p => messages_row.timestamp p.1) group in
  summary_count (group_summary name group) = Z.of_nat (length group) /\
  summary_min (group_summary name group) ∈ stamps /\
  (forall t, t ∈ stamps -> (summary_min (group_summary name group) ≤ t)%Z) /\
  summary_max (group_summary name group) ∈ stamps /\
  (forall t, t ∈ stamps -> (t ≤ summary_max (group_summary name group))%Z).
Proof.
  intros Hne. destruct group as [|p group]; [done|].
  unfold group_summary, summary_count, summary_min, summary_max.
  cbn [map hd].
  destruct (foldr_min_is_least (messages_row.timestamp p.1)
              (map (fun p => messages_row.timestamp p.1) group)) as [? ?].
  destruct (foldr_max_is_greatest (messages_row.timestamp p.1)
              (map (fun p => messages_row.timestamp p.1) group)) as [? ?].
  split_and!; done.
Qed.

(** X12.  On a database whose join of messages with topics is not
    empty and has fewer than 2^31 rows, with timestamps up to INT64_MAX,
    [get_metadata] returns without changing the object and reports: the
    number of joined rows as [message_count]; one entry per distinct
    topic name, in ascending order of the names, with the number of its
    joined rows and with the type and serialization format of one of the
    joined rows of that name; the smallest timestamp as [starting_time];
    and as [duration] the distance from it to the largest timestamp, or
    to zero when every timestamp is negative (the running maximum starts
    at zero). *)
Theorem get_metadata_summarises calculate_directory_size s :
  let joined := messages_join_topics (database_ s) in
  let stamps := map (fun p => messages_row.timestamp p.1) joined in
  joined <> [] ->
  (Z.of_nat (length joined) < 2147483648)%Z ->
  (forall t, t ∈ stamps -> (t ≤ INT64_MAX)%Z) ->
  exists metadata,
    get_metadata calculate_directory_size s = (Returned metadata, s) /\
    BagMetadata.message_count metadata = Z.of_nat (length joined) /\
    map (fun e => (TopicMetadata.name e.1, e.2))
        (BagMetadata.topics_with_message_count metadata) =
      map (fun n => (n, Z.of_nat (length
                          (filter (fun p => topics_row.name p.2 = n) joined))))
          (merge_sort String.le
             (remove_dups (map (fun p => topics_row.name p.2) joined))) /\
    StronglySorted String.le
      (map (fun e => TopicMetadata.name e.1)
         (BagMetadata.topics_with_message_count metadata)) /\
    NoDup (map (fun e => TopicMetadata.name e.1)
             (BagMetadata.topics_with_message_count metadata)) /\
    (forall e, e ∈ BagMetadata.topics_with_message_count metadata ->
       exists p, p ∈ joined /\
         e.1 = TopicMetadata.mk (topics_row.name p.2) (topics_row.type p.2)
                 (topics_row.serialization_format p.2)) /\
    BagMetadata.starting_time metadata ∈ stamps /\
    (forall t, t ∈ stamps -> (BagMetadata.starting_time metadata ≤ t)%Z) /\
    exists latest,
      (latest = 0%Z \/ latest ∈ stamps) /\
      (0 ≤ latest)%Z /\
      (forall t, t ∈ stamps -> (t ≤ latest)%Z) /\
      BagMetadata.duration metadata
        = wrap_int64 (latest - BagMetadata.starting_time metadata).
Proof.
  intros joined stamps Hne Hlen Hmax.
  set (names := merge_sort String.le
                  (remove_dups (map (fun p => topics_row.name p.2) joined))).
  set (group := fun n => filter (fun p => topics_row.name p.2 = n) joined).
  assert (Hnames : names ≡ₚ remove_dups (map (fun p => topics_row.name p.2) joined))
    by apply merge_sort_Permutation.
  assert (Hnodup : NoDup names)
    by (rewrite Hnames; apply NoDup_remove_dups).
  assert (Hname_in : forall n, n ∈ names <->
            exists p, n = topics_row.name p.2 /\ p ∈ joined).
  { intros n. now rewrite Hnames, elem_of_remove_dups, list_elem_of_fmap. }
  assert (Hrows : select_summary (database_ s)
                  = map (fun n => group_summary n (group n)) names) by reflexivity.
  assert (Hgroup_ne : forall n, n ∈ names -> group n <> []).
  { intros n Hn Hnil. apply Hname_in in Hn as (p & -> & Hp).
    eapply (filter_nil_not_elem_of _ _ p Hnil); [reflexivity|exact Hp]. }
  assert (Hgroup_in : forall n t,
            t ∈ map (fun p => messages_row.timestamp p.1) (group n) -> t ∈ stamps).
  { intros n t (p & -> & [_ Hp]%list_elem_of_filter)%list_elem_of_fmap.
    apply list_elem_of_fmap. eauto. }
  assert (Hstamp_group : forall t, t ∈ stamps ->
            exists n, n ∈ names /\
              t ∈ map (fun p => messages_row.timestamp p.1) (group n)).
  { intros t (p & -> & Hp)%list_elem_of_fmap.
    exists (topics_row.name p.2). split.
    - apply Hname_in. eauto.
    - apply list_elem_of_fmap. exists p. split; [done|].
      now apply list_elem_of_filter. }
  assert (Hsum : sum_list (map (fun r => Z.to_nat (summary_count r))
                             (map (fun n => group_summary n (group n)) names))
                 = length joined).
  { rewrite map_map.
    rewrite <- (group_sizes_cover (fun p => topics_row.name p.2) joined names Hnodup)
      by (intros p Hp; apply Hname_in; eauto).
    f_equal. apply map_ext_in. intros n Hn%list_elem_of_In.
    destruct (group_summary_aggregates n (group n) (Hgroup_ne n Hn)) as (-> & _).
    apply Nat2Z.id. }
  assert (Hloop :
      fold_left get_metadata_step (select_summary (database_ s))
        ([], 0%Z, INT64_MAX, 0%Z) =
      ([] ++ map (fun r => let '(name, type, format, count, _, _) := r in
                           (TopicMetadata.mk name type format, count))
                 (map (fun n => group_summary n (group n)) names),
       (0 + Z.of_nat (length joined))%Z,
       fold_left Z.min (map summary_min
                          (map (fun n => group_summary n (group n)) names)) INT64_MAX,
       fold_left Z.max (map summary_max
                          (map (fun n => group_summary n (group n)) names)) 0%Z)).
  { rewrite Hrows, <- Hsum. apply get_metadata_loop; [|lia|rewrite Hsum; lia].
    apply Forall_forall. intros r (n & -> & Hn)%list_elem_of_fmap.
    destruct (group_summary_aggregates n (group n) (Hgroup_ne n Hn)) as (-> & _).
    pose proof (length_filter (fun p => topics_row.name p.2 = n) joined).
    unfold group. lia. }
  set (mins := map summary_min (map (fun n => group_summary n (group n)) names)) in *.
  set (maxes := map summary_max (map (fun n => group_summary n (group n)) names)) in *.
  destruct (fold_left_min_bounds mins INT64_MAX) as (Hmin_in & Hmin_le & Hmin_all).
  destruct (fold_left_max_bounds maxes 0%Z) as (Hmax_in & Hmax_le & Hmax_all).
  assert (Hmins : forall m, m ∈ mins ->
            exists n, n ∈ names /\ m = summary_min (group_summary n (group n))).
  { intros m (r & -> & (n & -> & Hn)%list_elem_of_fmap)%list_elem_of_fmap. eauto. }
  assert (Hmaxes : forall m, m ∈ maxes ->
            exists n, n ∈ names /\ m = summary_max (group_summary n (group n))).
  { intros m (r & -> & (n & -> & Hn)%list_elem_of_fmap)%list_elem_of_fmap. eauto. }
  assert (Hleast : forall t, t ∈ stamps -> (fold_left Z.min mins INT64_MAX ≤ t)%Z).
  { intros t Ht. destruct (Hstamp_group t Ht) as (n & Hn & Htn).
    destruct (group_summary_aggregates n (group n) (Hgroup_ne n Hn))
      as (_ & _ & Hall & _).
    specialize (Hall t Htn).
    assert (summary_min (group_summary n (group n)) ∈ mins).
    { apply list_elem_of_fmap. eexists. split; [reflexivity|].
      apply list_elem_of_fmap. eauto. }
    specialize (Hmin_all _ H). lia. }
  assert (Hgreatest : forall t, t ∈ stamps -> (t ≤ fold_left Z.max maxes 0)%Z).
  { intros t Ht. destruct (Hstamp_group t Ht) as (n & Hn & Htn).
    destruct (group_summary_aggregates n (group n) (Hgroup_ne n Hn))
      as (_ & _ & _ & _ & Hall).
    specialize (Hall t Htn).
    assert (summary_max (group_summary n (group n)) ∈ maxes).
    { apply list_elem_of_fmap. eexists. split; [reflexivity|].
      apply list_elem_of_fmap. eauto. }
    specialize (Hmax_all _ H). lia. }
  assert (Hcount_ne : (0 + Z.of_nat (length joined) =? 0)%Z = false).
  { apply Z.eqb_neq. destruct joined; [done|simpl; lia]. }
  unfold get_metadata, bind, get. cbv beta iota. rewrite Hloop, Hcount_ne.
  eexists. split; [reflexivity|]. cbn [BagMetadata.message_count
    BagMetadata.topics_with_message_count BagMetadata.starting_time
    BagMetadata.duration].
  rewrite app_nil_l.
  split_and!.
  - lia.
  - rewrite !map_map. apply map_ext. intros n. reflexivity.
  - match goal with |- StronglySorted _ ?l => replace l with names end;
      [apply StronglySorted_merge_sort; apply _|].
    rewrite !map_map. rewrite <- (map_id names) at 1. now apply map_ext.
  - match goal with |- NoDup ?l => replace l with names end; [exact Hnodup|].
    rewrite !map_map. rewrite <- (map_id names) at 1. now apply map_ext.
  - intros e (r & -> & (n & -> & Hn)%list_elem_of_fmap)%list_elem_of_fmap.
    destruct (bare_columns_row_of_nonempty (group n) (Hgroup_ne n Hn))
      as [row Hrow].
    pose proof (bare_columns_row_in_group _ _ Hrow)
      as [Hname Hin]%list_elem_of_filter.
    exists row. split; [exact Hin|].
    unfold group_summary. rewrite Hrow, Hname. reflexivity.
  - destruct Hmin_in as [Heq|Hin].
    + destruct (nonempty_has_element joined Hne) as (p & Hpj).
      assert (messages_row.timestamp p.1 ∈ stamps) as Hp
        by (apply list_elem_of_fmap; eauto).
      pose proof (Hleast _ Hp). pose proof (Hmax _ Hp).
      replace (fold_left Z.min mins INT64_MAX)
        with (messages_row.timestamp p.1) by lia.
      exact Hp.
    + destruct (Hmins _ Hin) as (n & Hn & ->).
      destruct (group_summary_aggregates n (group n) (Hgroup_ne n Hn))
        as (_ & Hmem & _).
      now apply (Hgroup_in n).
  - exact Hleast.
  - exists (fold_left Z.max maxes 0%Z). split_and!; try done.
    destruct Hmax_in as [->|Hin]; [now left|right].
    destruct (Hmaxes _ Hin) as (n & Hn & ->).
    destruct (group_summary_aggregates n (group n) (Hgroup_ne n Hn))
      as (_ & _ & _ & Hmem & _).
    now apply (Hgroup_in n).
Qed.

End Summary.

(** ** Opening *)

Section Opening.

(** X13.  [open] with [READ_ONLY] yields a usable object exactly when
    the metadata can be read, names at least one file, that file exists
    and the database behind it opens with its tables; the object then
    holds the database as found (no table is created) under the first
    file name of the metadata. *)
Theorem open_read_only_succeeds_iff env created_nonce uri s :
  open env created_nonce uri READ_ONLY = Opened s <->
  exists metadata path rest db,
    read_metadata env uri = inl metadata /\
    BagMetadata.relative_file_paths metadata = path :: rest /\
    ifstream_good env (concat env [uri; path]) = true /\
    SqliteWrapper_ctor env (concat env [uri; path]) READ_ONLY
      = Returned (with_tables db) /\
    s = open_read_only created_nonce path db.
Proof.
  unfold open, load_metadata, database_exists. simpl.
  split.
  - destruct (read_metadata env uri) as [metadata|what] eqn:Hmeta; [|done].
    destruct (BagMetadata.relative_file_paths metadata) as [|path rest] eqn:Hpaths;
      [done|].
    destruct (ifstream_good env (concat env [uri; path])) eqn:Hgood; [|done].
    simpl.
    destruct (SqliteWrapper_ctor env (concat env [uri; path]) READ_ONLY)
      as [[|db]|[]] eqn:Hctor; try done.
    intros [= <-]. exists metadata, path, rest, db. done.
  - intros (metadata & path & rest & db & -> & -> & -> & -> & ->). done.
Qed.

(** X14.  [open] with a writing flag never reads the metadata and
    never tests whether the file exists.  It names the database after the
    bag's folder, with the extension [.db3].  On a file without tables it
    creates them empty; when the constructor throws a [SqliteException]
    it throws a [runtime_error] that quotes it; on a database that
    already has the tables, the [CREATE TABLE] of [initialize] throws
    after the database has been attached. *)
Theorem open_for_writing env created_nonce uri io_flag :
  io_flag <> READ_ONLY ->
  let database_name := String.append (get_folder_name env uri) ".db3" in
  let database_path := concat env [uri; database_name] in
  (forall reads good,
     open (mkSurroundings reads good (get_folder_name env) (concat env)
             (SqliteWrapper_ctor env) (table_exists_what env))
          created_nonce uri io_flag
     = open env created_nonce uri io_flag) /\
  (SqliteWrapper_ctor env database_path io_flag = Returned new_file ->
   open env created_nonce uri io_flag
     = Opened (open_read_write created_nonce database_name)) /\
  (forall what,
     SqliteWrapper_ctor env database_path io_flag = Thrown (SqliteException what) ->
     open env created_nonce uri io_flag
       = NotOpened
           (runtime_error (String.append "Failed to setup storage. Error: " what))
           database_name) /\
  (forall db,
     SqliteWrapper_ctor env database_path io_flag = Returned (with_tables db) ->
     open env created_nonce uri io_flag
       = ThrownAfterAttaching
           (uncaught (SqliteException (table_exists_what env)))
           (BbrStorage_ctor created_nonce database_name db)).
Proof.
  intros Hflag database_name database_path.
  assert (Hro : is_read_only io_flag = false)
    by (unfold is_read_only; now apply bool_decide_eq_false).
  unfold open. rewrite Hro. simpl.
  fold database_name. fold database_path.
  split_and!.
  - done.
  - now intros ->.
  - now intros what ->.
  - now intros db ->.
Qed.

End Opening.

(** ** Round trip through the record store *)

Section RoundTrip.

Context {helper_ : BbrHelper}.

(** X15.  After a session begun on a newly opened bag (fewer than
    2^31 topic rows), whichever calls failed, the join of the messages
    table with the topics table has exactly one row per messages row, in
    rowid order, and the data, timestamp and topic name it gives for each
    are those of the messages whose insert completed, in the order of the
    calls: what was written is what the queries hand back. *)
Theorem persisted_messages_round_trip created_nonce database_name cs :
  let opened := open_read_write created_nonce database_name in
  let s := perform_all cs opened in
  (Z.of_nat (length (topics (database_ s))) < 2147483648)%Z ->
  map joined_message (messages_join_topics (database_ s)) = persisted cs opened /\
  map fst (messages_join_topics (database_ s)) = messages (database_ s).
Proof.
  intros opened s Hbound.
  pose proof (store_invariant_session cs opened []
                (store_invariant_opened created_nonce database_name) Hbound)
    as (Hms & Hfst & _).
  split; [exact Hms|exact Hfst].
Qed.

End RoundTrip.

(** ** The further properties at concrete inputs *)

Lemma session_is_append_only_witness :
  topics_ session_A !! "A" = Some (TopicInfo.mk 1 digest0_A digest0_A) /\
  let s' := perform_all (helper_ := transcript_helper)
              [call_write NoFault message_P1; call_create_topic NoFault topic_B]
              session_A in
  topics (database_ session_A) `prefix_of` topics (database_ s') /\
  node_ session_A `prefix_of` node_ s' /\
  exists found',
    topics_ s' !! "A" = Some found' /\
    TopicInfo.id found' = 1%Z /\
    TopicInfo.nonce found' = digest0_A.
Proof.
  assert (Hfound : topics_ session_A !! "A"
                   = Some (TopicInfo.mk 1 digest0_A digest0_A))
    by (vm_compute; reflexivity).
  split; [exact Hfound|].
  destruct (session_is_append_only (helper_ := transcript_helper)
              [call_write NoFault message_P1; call_create_topic NoFault topic_B]
              session_A) as (Ht & _ & Hn & Hkeep).
  split; [exact Ht|]. split; [exact Hn|].
  exact (Hkeep "A" _ Hfound).
Defined.

Lemma rows_are_numbered_in_insertion_order_witness :
  exists row,
    topics (database_ session_scenario) !! 1 = Some row /\
    topics_row.name row = "B" /\
    topics_row.id row = (Z.of_nat 1 + 1)%Z.
Proof.
  eexists. split; [vm_compute; reflexivity|]. split; [reflexivity|].
  apply (proj1 (rows_are_numbered_in_insertion_order
                  (helper_ := transcript_helper) nonce0 "bag.db3" scenario)).
  vm_compute. reflexivity.
Defined.

Lemma tracked_topics_have_their_own_rows_witness :
  (Z.of_nat (length (topics (database_ session_scenario))) < 2147483648)%Z /\
  topics_ session_scenario !! "A"
    = Some (TopicInfo.mk 1
              (computeMessageDigest (BbrHelper := transcript_helper)
                 digest1_A message_P2)
              digest0_A) /\
  topics_ session_scenario !! "B"
    = Some (TopicInfo.mk 2 (nonce_ session_A ++ canonicalEncode_topic topic_B)
              (nonce_ session_A ++ canonicalEncode_topic topic_B)) /\
  "B" <> "A" /\
  2%Z <> 1%Z.
Proof.
  assert (Hbound : (Z.of_nat (length (topics (database_ session_scenario)))
                    < 2147483648)%Z) by (vm_compute; reflexivity).
  assert (HA : topics_ session_scenario !! "A"
               = Some (TopicInfo.mk 1
                         (computeMessageDigest (BbrHelper := transcript_helper)
                            digest1_A message_P2)
                         digest0_A)) by (vm_compute; reflexivity).
  assert (HB : topics_ session_scenario !! "B"
               = Some (TopicInfo.mk 2
                         (nonce_ session_A ++ canonicalEncode_topic topic_B)
                         (nonce_ session_A ++ canonicalEncode_topic topic_B)))
    by (vm_compute; reflexivity).
  assert (Hne : "B" <> "A") by discriminate.
  split; [exact Hbound|]. split; [exact HA|]. split; [exact HB|].
  split; [exact Hne|].
  destruct (tracked_topics_have_their_own_rows (helper_ := transcript_helper)
              nonce0 "bag.db3" scenario Hbound) as (_ & Hdistinct).
  exact (Hdistinct "B" "A" _ _ HB HA Hne).
Defined.

Lemma fault_free_memory_matches_store_witness :
  fault_free scenario /\
  (Z.of_nat (length (topics (database_ session_scenario))) < 2147483648)%Z /\
  topics_ session_scenario !! "A"
    = Some (TopicInfo.mk 1
              (computeMessageDigest (BbrHelper := transcript_helper)
                 digest1_A message_P2)
              digest0_A) /\
  durable_digest (database_ session_scenario) 1
    = Some (computeMessageDigest (BbrHelper := transcript_helper)
              digest1_A message_P2).
Proof.
  assert (Hff : fault_free scenario) by (repeat constructor).
  assert (Hbound : (Z.of_nat (length (topics (database_ session_scenario)))
                    < 2147483648)%Z) by (vm_compute; reflexivity).
  assert (HA : topics_ session_scenario !! "A"
               = Some (TopicInfo.mk 1
                         (computeMessageDigest (BbrHelper := transcript_helper)
                            digest1_A message_P2)
                         digest0_A)) by (vm_compute; reflexivity).
  split; [exact Hff|]. split; [exact Hbound|]. split; [exact HA|].
  exact (fault_free_memory_matches_store (helper_ := transcript_helper)
           nonce0 "bag.db3" scenario Hff Hbound "A" _ HA).
Defined.

Lemma fault_free_store_verifies_witness :
  fault_free scenario /\
  (Z.of_nat (length (topics (database_ session_scenario))) < 2147483648)%Z /\
  exists first second,
    messages (database_ session_scenario) = [first] ++ second :: [] /\
    exists t previous,
      t ∈ topics (database_ session_scenario) /\
      topics_row.id t = messages_row.topic_id second /\
      durable_digest
        (mkSqliteWrapper (topics (database_ session_scenario)) [first] 0)
        (messages_row.topic_id second) = Some previous /\
      messages_row.bbr_digest second
        = computeMessageDigest (BbrHelper := transcript_helper) previous
            (row_message (topics_row.name t) second).
Proof.
  assert (Hff : fault_free scenario) by (repeat constructor).
  assert (Hbound : (Z.of_nat (length (topics (database_ session_scenario)))
                    < 2147483648)%Z) by (vm_compute; reflexivity).
  split; [exact Hff|]. split; [exact Hbound|].
  eexists _, _. split; [vm_compute; reflexivity|].
  refine (fault_free_store_verifies (helper_ := transcript_helper)
            nonce0 "bag.db3" scenario Hff Hbound [_] _ [] _).
  vm_compute. reflexivity.
Defined.

Lemma topic_list_is_never_refreshed_witness :
  (get_all_topics_and_types session_A).1 = Returned [topic_A] /\
  [topic_A] <> [] /\
  (get_all_topics_and_types
     (perform_all (helper_ := transcript_helper)
        [call_create_topic NoFault topic_B]
        (get_all_topics_and_types session_A).2)).1 = Returned [topic_A].
Proof.
  assert (Hfirst : (get_all_topics_and_types session_A).1 = Returned [topic_A])
    by (vm_compute; reflexivity).
  assert (Hne : [topic_A] <> []) by discriminate.
  split; [exact Hfirst|]. split; [exact Hne|].
  exact (topic_list_is_never_refreshed (helper_ := transcript_helper)
           session_A [topic_A] [call_create_topic NoFault topic_B] Hfirst Hne).
Defined.

Lemma cursor_is_a_snapshot_witness :
  read_statement_ (has_next session_scenario).2 = true /\
  (replay 5
     (perform_all (helper_ := transcript_helper)
        [call_write NoFault message_P3] (has_next session_scenario).2)).1
  = (replay 5 (has_next session_scenario).2).1.
Proof.
  assert (Hprep : read_statement_ (has_next session_scenario).2 = true)
    by (vm_compute; reflexivity).
  split; [exact Hprep|].
  exact (cursor_is_a_snapshot (helper_ := transcript_helper)
           (has_next session_scenario).2 [call_write NoFault message_P3] 5 Hprep).
Defined.

Lemma replay_of_any_database_witness :
  length (messages_join_topics (database_ session_scenario)) <= 2 /\
  exists out s',
    replay 2 (open_read_only nonce0 "bag.db3" (database_ session_scenario))
      = (Returned out, s') /\
    (has_next s').1 = Returned false /\
    StronglySorted stamp_le out.
Proof.
  assert (Hfuel : length (messages_join_topics (database_ session_scenario)) <= 2)
    by (vm_compute; repeat constructor).
  split; [exact Hfuel|].
  destruct (replay_of_any_database nonce0 "bag.db3"
              (database_ session_scenario) 2 Hfuel)
    as (out & s' & Hrun & Hend & _ & Hsorted & _).
  exists out, s'. split; [exact Hrun|]. split; [exact Hend|exact Hsorted].
Defined.

Lemma replay_skips_rows_without_topic_witness :
  NoDup (map topics_row.id (topics database_with_orphan)) /\
  length (messages database_with_orphan) <= 3 /\
  omap (matched_message database_with_orphan) (messages database_with_orphan) =
    [SerializedBagMessage.mk [x50; x31] 300 "A";
     SerializedBagMessage.mk [x50; x33] 100 "A"] /\
  exists out s',
    replay 3 (open_read_only nonce0 "bag.db3" database_with_orphan)
      = (Returned out, s') /\
    out ≡ₚ omap (matched_message database_with_orphan)
             (messages database_with_orphan) /\
    StronglySorted stamp_le out /\
    length out = 2.
Proof.
  assert (Hnodup : NoDup (map topics_row.id (topics database_with_orphan))).
  { apply (bool_decide_unpack _). vm_compute. exact I. }
  assert (Hfuel : length (messages database_with_orphan) <= 3)
    by (vm_compute; repeat constructor).
  split; [exact Hnodup|]. split; [exact Hfuel|].
  split; [vm_compute; reflexivity|].
  destruct (replay_skips_rows_without_topic nonce0 "bag.db3"
              database_with_orphan 3 Hnodup Hfuel)
    as (out & s' & Hrun & Hperm & Hsorted & _ & _ & Hlen).
  exists out, s'. split; [exact Hrun|]. split; [exact Hperm|].
  split; [exact Hsorted|exact Hlen].
Defined.

Lemma failed_publication_then_retry_witness :
  topics_ session_opened !! TopicMetadata.name topic_A = None /\
  let s1 := (create_topic (helper_ := transcript_helper)
               (PublicationFailure "no route") topic_A session_opened).2 in
  topics_ s1 !! TopicMetadata.name topic_A = None /\
  (write (helper_ := transcript_helper) NoFault message_P1 s1).1
    = Thrown (unknown_topic (TopicMetadata.name topic_A)) /\
  length (topics (database_ (create_topic (helper_ := transcript_helper)
                               NoFault topic_A s1).2)) = 2.
Proof.
  assert (Hnone : topics_ session_opened !! TopicMetadata.name topic_A = None)
    by (vm_compute; reflexivity).
  split; [exact Hnone|].
  destruct (failed_publication_then_retry (helper_ := transcript_helper)
              "no route" topic_A session_opened Hnone)
    as (Hstill & Hwrite & row1 & row2 & Hrows & _).
  split; [exact Hstill|]. split; [exact (Hwrite NoFault message_P1 eq_refl)|].
  rewrite Hrows. reflexivity.
Defined.

Lemma get_metadata_summarises_witness :
  let s := open_read_only nonce0 "bag.db3" database_B_before_A in
  messages_join_topics (database_ s) <> [] /\
  (Z.of_nat (length (messages_join_topics (database_ s))) < 2147483648)%Z /\
  (forall t,
     t ∈ map (fun p => messages_row.timestamp p.1)
           (messages_join_topics (database_ s)) ->
     (t ≤ INT64_MAX)%Z) /\
  exists metadata,
    get_metadata (fun _ => 4096%Z) s = (Returned metadata, s) /\
    BagMetadata.message_count metadata = 3%Z /\
    map (fun e => (TopicMetadata.name e.1, e.2))
        (BagMetadata.topics_with_message_count metadata) = [("A", 1%Z); ("B", 2%Z)] /\
    BagMetadata.starting_time metadata ∈ [300%Z; 100%Z; 200%Z].
Proof.
  set (s := open_read_only nonce0 "bag.db3" database_B_before_A).
  assert (Hne : messages_join_topics (database_ s) <> [])
    by (vm_compute; discriminate).
  assert (Hlen : (Z.of_nat (length (messages_join_topics (database_ s)))
                  < 2147483648)%Z) by (vm_compute; reflexivity).
  assert (Hmax : forall t,
            t ∈ map (fun p => messages_row.timestamp p.1)
                  (messages_join_topics (database_ s)) ->
            (t ≤ INT64_MAX)%Z).
  { apply Forall_forall. apply (bool_decide_unpack _). vm_compute. exact I. }
  split; [exact Hne|]. split; [exact Hlen|]. split; [exact Hmax|].
  destruct (get_metadata_summarises (fun _ => 4096%Z) s Hne Hlen Hmax)
    as (metadata & Hrun & Hcount & Hentries & _ & _ & _ & Hstart & _).
  exists metadata. split; [exact Hrun|].
  split; [rewrite Hcount; vm_compute; reflexivity|].
  split; [rewrite Hentries; vm_compute; reflexivity|].
  exact Hstart.
Defined.

Lemma open_read_only_succeeds_iff_witness :
  open bag_on_disk nonce0 "bag" READ_ONLY
    = Opened (open_read_only nonce0 "bag.db3" (database_ session_scenario)).
Proof.
  apply (open_read_only_succeeds_iff bag_on_disk nonce0 "bag").
  exists bag_metadata, "bag.db3", [], (database_ session_scenario).
  repeat split.
Defined.

Lemma open_for_writing_witness :
  READ_WRITE <> READ_ONLY /\
  SqliteWrapper_ctor empty_folder
    (concat empty_folder ["bag"; String.append (get_folder_name empty_folder "bag") ".db3"])
    READ_WRITE = Returned new_file /\
  open empty_folder nonce0 "bag" READ_WRITE
    = Opened (open_read_write nonce0 "bag.db3").
Proof.
  assert (Hflag : READ_WRITE <> READ_ONLY) by discriminate.
  split; [exact Hflag|]. split; [reflexivity|].
  destruct (open_for_writing empty_folder nonce0 "bag" READ_WRITE Hflag)
    as (_ & Hnew & _).
  exact (Hnew eq_refl).
Defined.

Lemma persisted_messages_round_trip_witness :
  (Z.of_nat (length (topics (database_ session_scenario))) < 2147483648)%Z /\
  map joined_message (messages_join_topics (database_ session_scenario))
    = [message_P1; message_P2].
Proof.
  assert (Hbound : (Z.of_nat (length (topics (database_ session_scenario)))
                    < 2147483648)%Z) by (vm_compute; reflexivity).
  split; [exact Hbound|].
  destruct (persisted_messages_round_trip (helper_ := transcript_helper)
              nonce0 "bag.db3" scenario Hbound) as (Hround & _).
  etransitivity; [exact Hround|]. vm_compute. reflexivity.
Defined.
